(** * Connectivity core of the device firmware

    A shallow embedding of [include/utils/wifiConfig.h] (the configuration
    parameter registry) and [include/utils/mqtt_manager.h] (the MQTT
    manager: topic registration, connection life cycle, inbound dispatch),
    with the properties of both stated and proved over the embedding.

    Conventions.
    - An Arduino [String] and a [const char*] argument are Rocq strings (the
      terminating NUL is not part of the value).  A [(byte*, length)] pair
      is a Rocq string too; it may hold NUL bytes, and the places where the
      code reads it as a C string cut it at the first NUL.
    - The collaborators the firmware calls into (ArduinoJson, the flash file
      system, PubSubClient, the clock and the WiFi stack) are interfaces:
      type classes whose operations the embedding calls where the source
      calls the library.
    - Serial diagnostics ([DEBUG_PRINT*], [Serial.print*]) have no effect on
      the state modelled here and are left out. *)

From Stdlib Require Import ZArith Ascii.
From stdpp Require Import gmap strings list.

(** ** Collaborator interfaces *)

(** Values the firmware stores into an outgoing document. *)
Inductive JsonValue :=
| JString (s : string)
| JBool (b : bool)
| JNumber (z : Z).

(** ArduinoJson.  [newDocument c] is [DynamicJsonDocument doc(c)],
    [setMember d k v] is [d[k] = v], [memberAsString d k] is
    [d[k].as<String>()], and [deserializeJson c input] is
    [deserializeJson(doc, input)] on a fresh document of capacity [c]:
    [None] when it reports a [DeserializationError]. *)
Class ArduinoJson := {
  JsonDocument : Type;
  newDocument : nat → JsonDocument;
  setMember : JsonDocument → string → JsonValue → JsonDocument;
  containsKey : JsonDocument → string → bool;
  memberAsString : JsonDocument → string → string;
  deserializeJson : nat → string → option JsonDocument;
  serializeJson : JsonDocument → string
}.

(** The flash file system ([LittleFS] / [SPIFFS]).  [fs_read fs path] is
    [open(path, "r")] followed by reading the whole file: [None] when the
    file does not open.  [fs_store fs path data] is [open(path, "w")],
    writing [data] and closing: [None] when the file does not open. *)
Class FlashFS := {
  FS : Type;
  fs_exists : FS → string → bool;
  fs_read : FS → string → option string;
  fs_store : FS → string → string → option FS;
  fs_remove : FS → string → FS
}.

(** ** wifiConfig.h: the configuration parameter registry *)

Module WifiConfig.

(** [struct ConfigParam].  The [wfmParam] pointer (the portal widget made
    by [registerParam], never null) is not a field here: the one function
    that reads it, [loadConfigFromWiFiManager], takes the widgets' texts as
    an argument. *)
Record ConfigParam := {
  key : string;
  label : string;
  defaultValue : string;
  maxLength : Z;
  value : string
}.

Definition with_value (v : string) (p : ConfigParam) : ConfigParam :=
  {| key := key p; label := label p; defaultValue := defaultValue p;
     maxLength := maxLength p; value := v |}.

Definition CONFIG_FILE : string := "/config.json".

Section Registry.
Context {json_lib : ArduinoJson} {flash_fs : FlashFS}.

(** The two global containers and the file system they are saved to. *)
Record Config := {
  configParams : list ConfigParam;
  configValues : gmap string string;
  fileSystem : FS
}.

Definition with_registry (ps : list ConfigParam) (vs : gmap string string)
    (st : Config) : Config :=
  {| configParams := ps; configValues := vs; fileSystem := fileSystem st |}.

Definition with_fileSystem (fs : FS) (st : Config) : Config :=
  {| configParams := configParams st; configValues := configValues st;
     fileSystem := fs |}.

Definition has_key (k : string) (p : ConfigParam) : bool := String.eqb (key p) k.

(** The parameter a loop [for (auto& param : configParams) if (param.key == k)]
    stops at. *)
Definition find_param (k : string) (ps : list ConfigParam) : option ConfigParam :=
  List.find (has_key k) ps.

Definition registerParam (k l d : string) (m : Z) (st : Config) : Config :=
  match find_param k (configParams st) with
  | Some _ => st
  | None =>
      with_registry
        (configParams st ++
           [{| key := k; label := l; defaultValue := d; maxLength := m; value := d |}])
        (<[k := d]> (configValues st)) st
  end.

(** [configParams.erase(it)] at the first parameter named [k]; [None] when
    the loop ends without a match. *)
Fixpoint erase_first (k : string) (ps : list ConfigParam) : option (list ConfigParam) :=
  match ps with
  | [] => None
  | p :: rest =>
      if has_key k p then Some rest
      else cons p <$> erase_first k rest
  end.

Definition unregisterParam (k : string) (st : Config) : Config :=
  match erase_first k (configParams st) with
  | Some ps => with_registry ps (delete k (configValues st)) st
  | None => st
  end.

Definition clearAllParams (st : Config) : Config :=
  with_registry [] ∅ st.

Definition getConfigValue (k : string) (st : Config) : string :=
  match configValues st !! k with
  | Some v => v
  | None => EmptyString
  end.

(** [doc[param.key] = param.value] for every parameter, in order. *)
Definition config_document (ps : list ConfigParam) : JsonDocument :=
  fold_left (λ doc p, setMember doc (key p) (JString (value p))) ps (newDocument 2048).

Definition saveConfig (st : Config) : bool * Config :=
  match fs_store (fileSystem st) CONFIG_FILE
          (serializeJson (config_document (configParams st))) with
  | None => (false, st)
  | Some fs => (true, with_fileSystem fs st)
  end.

(** [param.value = String(v)] at the first parameter named [k]; [None] when
    the loop ends without a match. *)
Fixpoint assign_first (k v : string) (ps : list ConfigParam) : option (list ConfigParam) :=
  match ps with
  | [] => None
  | p :: rest =>
      if has_key k p then Some (with_value v p :: rest)
      else cons p <$> assign_first k v rest
  end.

Definition setConfigValue (k v : string) (st : Config) : Config :=
  match assign_first k v (configParams st) with
  | Some ps => snd (saveConfig (with_registry ps (<[k := v]> (configValues st)) st))
  | None => st
  end.

(** A loop [for (auto& param : configParams)] whose body assigns, at some
    parameters, [param.value = v; configValues[param.key] = v]: [upd p] is
    the [v] assigned at [p], if any.  [readConfig],
    [loadConfigFromWiFiManager] and [resetConfig] each have one. *)
Definition assign_params (upd : ConfigParam → option string)
    (ps : list ConfigParam) : list ConfigParam :=
  (λ p, match upd p with Some v => with_value v p | None => p end) <$> ps.

Definition assign_values (upd : ConfigParam → option string)
    (ps : list ConfigParam) (vs : gmap string string) : gmap string string :=
  fold_left (λ vs p, match upd p with Some v => <[key p := v]> vs | None => vs end) ps vs.

Definition assign_all (upd : ConfigParam → option string) (st : Config) : Config :=
  with_registry (assign_params upd (configParams st))
    (assign_values upd (configParams st) (configValues st)) st.

(** The body of the loop of [readConfig]. *)
Definition stored_value (doc : JsonDocument) (p : ConfigParam) : option string :=
  if containsKey doc (key p) then Some (memberAsString doc (key p)) else None.

Definition readConfig (st : Config) : bool * Config :=
  if negb (fs_exists (fileSystem st) CONFIG_FILE) then (false, st)
  else
    match fs_read (fileSystem st) CONFIG_FILE with
    | None => (false, st)
    | Some text =>
        match deserializeJson 2048 text with
        | None => (false, st)
        | Some doc => (true, assign_all (stored_value doc) st)
        end
    end.

(** The body of the loop of [loadConfigFromWiFiManager]; [getValue k] is
    the text of the portal widget of the parameter named [k]. *)
Definition portal_value (getValue : string → string) (p : ConfigParam) : option string :=
  let v := getValue (key p) in
  if (0 <? String.length v)%nat && negb (String.eqb v (value p)) then Some v else None.

Definition loadConfigFromWiFiManager (getValue : string → string) (st : Config) : Config :=
  let changed := existsb (λ p, bool_decide (is_Some (portal_value getValue p)))
                   (configParams st) in
  let st' := assign_all (portal_value getValue) st in
  if changed then snd (saveConfig st') else st'.

Definition resetConfig (st : Config) : Config :=
  let fs := if fs_exists (fileSystem st) CONFIG_FILE
            then fs_remove (fileSystem st) CONFIG_FILE else fileSystem st in
  assign_all (λ p, Some (defaultValue p)) (with_fileSystem fs st).

(** The registry starts with both containers empty; every state the
    firmware can be in is reached from there through the functions of the
    header. *)
Inductive reachable : Config → Prop :=
| reach_init fs :
    reachable {| configParams := []; configValues := ∅; fileSystem := fs |}
| reach_registerParam k l d m st :
    reachable st → reachable (registerParam k l d m st)
| reach_unregisterParam k st :
    reachable st → reachable (unregisterParam k st)
| reach_clearAllParams st :
    reachable st → reachable (clearAllParams st)
| reach_setConfigValue k v st :
    reachable st → reachable (setConfigValue k v st)
| reach_readConfig st :
    reachable st → reachable (snd (readConfig st))
| reach_saveConfig st :
    reachable st → reachable (snd (saveConfig st))
| reach_loadConfigFromWiFiManager g st :
    reachable st → reachable (loadConfigFromWiFiManager g st)
| reach_resetConfig st :
    reachable st → reachable (resetConfig st).

(** The vector and the map are two views of one state. *)
Definition in_sync (st : Config) : Prop :=
  NoDup (key <$> configParams st) ∧
  ∀ k, configValues st !! k = value <$> find_param k (configParams st).

End Registry.
End WifiConfig.

(** ** mqtt_manager.h: the MQTT manager *)

(** PubSubClient.  The commands return the client they leave behind;
    [connected()] (and [state()], read for a diagnostic only) are queries.
    [client_connect c id None] is [connect(id)] and
    [client_connect c id (Some (user, pass))] is [connect(id, user, pass)]. *)
Class PubSubClient := {
  Client : Type;
  client_connect : Client → string → option (string * string) → bool * Client;
  client_connected : Client → bool;
  client_subscribe : Client → string → bool * Client;
  client_publish : Client → string → string → bool * Client;
  client_disconnect : Client → Client
}.

(** The clock and the WiFi stack: [millis n] is what the [n]-th call of
    [millis()] since boot returns. *)
Class Platform := {
  millis : nat → Z;
  getLocalIP : string
}.

(** [PubSubClient::loop()]: the messages it hands to the callback while it
    runs, each as [(topic, payload, length)], and the client it leaves. *)
Class PubSubInbound {pubsub_client : PubSubClient} := {
  client_loop : Client → list (string * string * Z) * Client
}.

(** [WiFi.RSSI()]. *)
Class WiFiRadio := {
  getWiFiSignalStrength : Z
}.

(** What a document is expected to answer after [d[k] = v], and a file
    system after a write or a removal.  Properties that depend on them take
    them as hypotheses. *)
Class ArduinoJsonLaws {json_lib : ArduinoJson} : Prop := {
  containsKey_newDocument c k : containsKey (newDocument c) k = false;
  containsKey_setMember d k v k' :
    containsKey (setMember d k v) k' = if decide (k = k') then true else containsKey d k';
  memberAsString_setMember d k s k' :
    memberAsString (setMember d k (JString s)) k' =
      if decide (k = k') then s else memberAsString d k'
}.

Class FlashFSLaws {flash_fs : FlashFS} : Prop := {
  fs_store_exists fs path data fs' :
    fs_store fs path data = Some fs' → fs_exists fs' path = true;
  fs_store_read fs path data fs' :
    fs_store fs path data = Some fs' → fs_read fs' path = Some data;
  fs_remove_exists fs path : fs_exists (fs_remove fs path) path = false
}.

Module MqttManager.

(** Function pointers are code addresses; [nullptr] is [None]. *)
Definition CommandCallback : Type := nat.
Definition MessageCallback : Type := nat.

Record MQTTTopic := {
  name : string;
  onCommand : option CommandCallback;
  onMessage : option MessageCallback
}.

(** [struct DeviceStatus]; its [deviceId] is [status_deviceId] here, the
    manager having a [deviceId] of its own. *)
Record DeviceStatus := {
  status_deviceId : string;
  chipType : string;
  isConnected : bool;
  lastUpdateTime : Z;
  uptime : Z;
  signalStrength : Z;
  ipAddress : string
}.

Definition with_isConnected (b : bool) (s : DeviceStatus) : DeviceStatus :=
  {| status_deviceId := status_deviceId s; chipType := chipType s; isConnected := b;
     lastUpdateTime := lastUpdateTime s; uptime := uptime s;
     signalStrength := signalStrength s; ipAddress := ipAddress s |}.

Definition with_lastUpdateTime (t : Z) (s : DeviceStatus) : DeviceStatus :=
  {| status_deviceId := status_deviceId s; chipType := chipType s;
     isConnected := isConnected s; lastUpdateTime := t; uptime := uptime s;
     signalStrength := signalStrength s; ipAddress := ipAddress s |}.

(** The double quote, for the literals of the source that hold one. *)
Definition dquote : string := String "034"%char EmptyString.

(** The literal [{\"status\":\"offline\"}] of [publishOfflineStatus]. *)
Definition OFFLINE_PAYLOAD : string :=
  "{" +:+ dquote +:+ "status" +:+ dquote +:+ ":" +:+ dquote +:+ "offline" +:+ dquote +:+ "}".

(** *** Reading a byte buffer as a C string *)

Definition NUL : ascii := "000"%char.

(** The characters before the first NUL. *)
Fixpoint c_str (s : string) : string :=
  match s with
  | EmptyString => EmptyString
  | String c rest => if Ascii.eqb c NUL then EmptyString else String c (c_str rest)
  end.

Fixpoint take (n : nat) (s : string) : string :=
  match n, s with
  | S n', String c rest => String c (take n' rest)
  | _, _ => EmptyString
  end.

(** [(int)length] of an [unsigned int]: 32-bit two's complement. *)
Definition int_of_unsigned (u : Z) : Z :=
  let r := (u mod 2 ^ 32)%Z in
  if (r <? 2 ^ 31)%Z then r else (r - 2 ^ 32)%Z.

(** [snprintf(buf, size, "%.*s", precision, arg)] read back as a C string:
    at most [precision] characters of [arg] up to its first NUL (a negative
    precision counts as none given), cut to [size - 1] characters. *)
Definition snprintf_s (size : nat) (precision : Z) (arg : string) : string :=
  let wanted := if (precision <? 0)%Z then arg else take (Z.to_nat precision) arg in
  take (size - 1) (c_str wanted).

Section Manager.
Context {json_lib : ArduinoJson} {flash_fs : FlashFS}
  {pubsub_client : PubSubClient} {platform : Platform}.

Record MQTTManager := {
  mqttClient : option Client;
  topics : list MQTTTopic;
  deviceStatus : DeviceStatus;
  baseTopicPrefix : string;
  deviceId : string;
  lastStatusPublish : Z;
  statusPublishInterval : Z;
  autoStatusReport : bool;
  debugEnabled : bool
}.

Definition with_mqttClient (c : option Client) (m : MQTTManager) : MQTTManager :=
  {| mqttClient := c; topics := topics m; deviceStatus := deviceStatus m;
     baseTopicPrefix := baseTopicPrefix m; deviceId := deviceId m;
     lastStatusPublish := lastStatusPublish m;
     statusPublishInterval := statusPublishInterval m;
     autoStatusReport := autoStatusReport m; debugEnabled := debugEnabled m |}.

Definition with_topics (ts : list MQTTTopic) (m : MQTTManager) : MQTTManager :=
  {| mqttClient := mqttClient m; topics := ts; deviceStatus := deviceStatus m;
     baseTopicPrefix := baseTopicPrefix m; deviceId := deviceId m;
     lastStatusPublish := lastStatusPublish m;
     statusPublishInterval := statusPublishInterval m;
     autoStatusReport := autoStatusReport m; debugEnabled := debugEnabled m |}.

Definition with_deviceStatus (s : DeviceStatus) (m : MQTTManager) : MQTTManager :=
  {| mqttClient := mqttClient m; topics := topics m; deviceStatus := s;
     baseTopicPrefix := baseTopicPrefix m; deviceId := deviceId m;
     lastStatusPublish := lastStatusPublish m;
     statusPublishInterval := statusPublishInterval m;
     autoStatusReport := autoStatusReport m; debugEnabled := debugEnabled m |}.

(** The constructor.  [lastUpdateTime] and [signalStrength] are left
    uninitialised by the source: [t0] and [rssi0] stand for what they hold. *)
Definition new_MQTTManager (client : option Client) (id prefix chip : string)
    (t0 rssi0 : Z) : MQTTManager :=
  {| mqttClient := client; topics := [];
     deviceStatus := {| status_deviceId := id; chipType := chip; isConnected := false;
                        lastUpdateTime := t0; uptime := 0; signalStrength := rssi0;
                        ipAddress := EmptyString |};
     baseTopicPrefix := prefix; deviceId := id;
     lastStatusPublish := 0; statusPublishInterval := 30000;
     autoStatusReport := true; debugEnabled := true |}.

(** *** Topic registration *)

Definition registerTopic (topicName : string) (cmdCallback : option CommandCallback)
    (msgCallback : option MessageCallback) (m : MQTTManager) : MQTTManager :=
  with_topics
    (topics m ++ [{| name := topicName; onCommand := cmdCallback; onMessage := msgCallback |}])
    m.

(** [topics.erase(it)] at the first topic named [topicName]. *)
Fixpoint erase_topic (topicName : string) (ts : list MQTTTopic) : list MQTTTopic :=
  match ts with
  | [] => []
  | t :: rest =>
      if String.eqb (name t) topicName then rest else t :: erase_topic topicName rest
  end.

Definition unregisterTopic (topicName : string) (m : MQTTManager) : MQTTManager :=
  with_topics (erase_topic topicName (topics m)) m.

Definition buildTopic (m : MQTTManager) (subTopic : string) : string :=
  baseTopicPrefix m +:+ "/" +:+ status_deviceId (deviceStatus m) +:+ "/" +:+ subTopic.

(** *** The manager with its surroundings *)

(** What the manager tells the client to do, in order. *)
Inductive ClientCall :=
| Connect (clientId : string) (credentials : option (string * string))
| Subscribe (topic : string)
| Publish (topic payload : string)
| Disconnect.

#[global] Instance ClientCall_eq_dec : EqDecision ClientCall.
Proof. solve_decision. Defined.

Record World := {
  manager : MQTTManager;
  wire : list ClientCall;
  clockReads : nat
}.

(** A member function with side effects. *)
Definition Action (A : Type) : Type := World → A * World.

#[global] Instance Action_ret : MRet Action := λ A a w, (a, w).
#[global] Instance Action_bind : MBind Action :=
  λ A B f act w, let '(a, w') := act w in f a w'.

Definition read {A} (f : MQTTManager → A) : Action A := λ w, (f (manager w), w).

Definition update (f : MQTTManager → MQTTManager) : Action unit :=
  λ w, (tt, {| manager := f (manager w); wire := wire w; clockReads := clockReads w |}).

Definition read_millis : Action Z :=
  λ w, (millis (clockReads w),
        {| manager := manager w; wire := wire w; clockReads := S (clockReads w) |}).

(** [mqttClient->...]: the command is recorded and the client replaced by
    the one it leaves.  The source dereferences [mqttClient] only behind a
    null check; on a null pointer the model does nothing and returns
    [absent]. *)
Definition tell {A} (call : ClientCall) (run : Client → A * Client) (absent : A) : Action A :=
  λ w, match mqttClient (manager w) with
       | Some c =>
           let result := run c in
           (result.1, {| manager := with_mqttClient (Some result.2) (manager w);
                         wire := wire w ++ [call]; clockReads := clockReads w |})
       | None => (absent, w)
       end.

Definition client_is_connected (m : MQTTManager) : bool :=
  match mqttClient m with
  | Some c => client_connected c
  | None => false
  end.

(** [isConnected()]. *)
Definition is_connected : Action bool := read client_is_connected.

(** *** Publishing *)

Definition publish (topic message : string) : Action bool :=
  connected ← is_connected;
  if negb connected return Action bool then mret false
  else
    fullTopic ← read (λ m, buildTopic m topic);
    tell (Publish fullTopic message) (λ c, client_publish c fullTopic message) false.

Definition publishJson (topic : string) (doc : JsonDocument) : Action bool :=
  publish topic (serializeJson doc).

(** The document of [publishOnlineStatus]. *)
Definition online_document (id : string) (now : Z) : JsonDocument :=
  setMember
    (setMember
       (setMember
          (setMember (newDocument 256) "device_id" (JString id))
          "status" (JString "online"))
       "timestamp" (JNumber now))
    "ip_address" (JString getLocalIP).

Definition publishOnlineStatus : Action unit :=
  id ← read (λ m, status_deviceId (deviceStatus m));
  now ← read_millis;
  fullTopic ← read (λ m, baseTopicPrefix m +:+ "/" +:+ status_deviceId (deviceStatus m)
                          +:+ "/online");
  publishJson fullTopic (online_document id now);;
  mret tt.

(** The document built by the source is not the one sent: the payload is
    the literal. *)
Definition publishOfflineStatus : Action unit :=
  read_millis;;
  fullTopic ← read (λ m, baseTopicPrefix m +:+ "/" +:+ status_deviceId (deviceStatus m)
                          +:+ "/offline");
  tell (Publish fullTopic OFFLINE_PAYLOAD)
       (λ c, client_publish c fullTopic OFFLINE_PAYLOAD) false;;
  mret tt.

(** *** Connection life cycle *)

Fixpoint subscribe_each (ts : list MQTTTopic) : Action unit :=
  match ts with
  | [] => mret tt
  | t :: rest =>
      fullTopic ← read (λ m, buildTopic m (name t));
      tell (Subscribe fullTopic) (λ c, client_subscribe c fullTopic) false;;
      subscribe_each rest
  end.

Definition subscribeToAllTopics : Action unit :=
  ts ← read topics;
  subscribe_each ts.

(** [connect()].  The server and port it reads from the registry go to a
    diagnostic only; the user name and password choose the overload of
    [mqttClient->connect]. *)
Definition credentials (cfg : WifiConfig.Config) : option (string * string) :=
  let username := WifiConfig.getConfigValue "mqtt_user" cfg in
  let password := WifiConfig.getConfigValue "mqtt_pass" cfg in
  if (0 <? String.length username)%nat && (0 <? String.length password)%nat
  then Some (username, password) else None.

Definition connect (cfg : WifiConfig.Config) : Action bool :=
  client ← read mqttClient;
  match client with
  | None => mret false
  | Some _ =>
      id ← read deviceId;
      connected ← tell (Connect id (credentials cfg))
                       (λ c, client_connect c id (credentials cfg)) false;
      if (connected : bool) return Action bool then
        update (λ m, with_deviceStatus (with_isConnected true (deviceStatus m)) m);;
        now ← read_millis;
        update (λ m, with_deviceStatus (with_lastUpdateTime now (deviceStatus m)) m);;
        subscribeToAllTopics;;
        publishOnlineStatus;;
        mret true
      else
        update (λ m, with_deviceStatus (with_isConnected false (deviceStatus m)) m);;
        mret false
  end.

Definition disconnect : Action unit :=
  connected ← is_connected;
  if (connected : bool) return Action unit then
    publishOfflineStatus;;
    tell Disconnect (λ c, (tt, client_disconnect c)) tt;;
    update (λ m, with_deviceStatus (with_isConnected false (deviceStatus m)) m)
  else mret tt.

(** *** Inbound dispatch *)

(** A call through a handler pointer.  What the handler then does is the
    application's business and is not followed. *)
Inductive Invocation :=
| CommandInvoked (handler : CommandCallback) (command : string) (payload : JsonDocument)
| MessageInvoked (handler : MessageCallback) (topic message : string).

(** The body of the loop of [onMqttMessage] at a matching topic. *)
Definition invoke (t : MQTTTopic) (doc : JsonDocument) (topic message : string)
    : list Invocation :=
  match containsKey doc "command", onCommand t with
  | true, Some handler => [CommandInvoked handler (memberAsString doc "command") doc]
  | _, _ =>
      match onMessage t with
      | Some handler => [MessageInvoked handler topic message]
      | None => []
      end
  end.

Fixpoint dispatch (m : MQTTManager) (ts : list MQTTTopic) (doc : JsonDocument)
    (topic message : string) : list Invocation :=
  match ts with
  | [] => []
  | t :: rest =>
      if String.eqb topic (buildTopic m (name t))
      then invoke t doc topic message
      else dispatch m rest doc topic message
  end.

(** The local buffer [message] of [onMqttMessage]. *)
Definition message_buffer (payload : string) (length : Z) : string :=
  snprintf_s 256 (int_of_unsigned length) payload.

(** [onMqttMessage(topic, payload, length)]: the handler calls it makes.
    [payload] is the memory at the pointer.  The parser is taken not to
    write to [message]. *)
Definition onMqttMessage (m : MQTTManager) (topic payload : string) (length : Z)
    : list Invocation :=
  let message := message_buffer payload length in
  match deserializeJson 512 message with
  | None => []
  | Some doc => dispatch m (topics m) doc topic message
  end.

(** *** Notions the statements use *)

(** How many bindings a name has. *)
Definition bindings_named (n : string) (ts : list MQTTTopic) : nat :=
  length (filter (λ t, name t = n) ts).

(** A run of [registerTopic] calls, first to last. *)
Definition register_all
    (calls : list (string * option CommandCallback * option MessageCallback))
    (m : MQTTManager) : MQTTManager :=
  fold_left (λ m call, registerTopic call.1.1 call.1.2 call.2 m) calls m.

(** The [Subscribe] commands for a list of bindings, and the client they
    leave. *)
Definition subscriptions (m : MQTTManager) (ts : list MQTTTopic) : list ClientCall :=
  (λ t, Subscribe (buildTopic m (name t))) <$> ts.

Definition after_subscriptions (m : MQTTManager) (ts : list MQTTTopic) (c : Client)
    : Client :=
  fold_left (λ c t, (client_subscribe c (buildTopic m (name t))).2) ts c.

(** The binding the loop of [onMqttMessage] stops at. *)
Definition matching_topic (m : MQTTManager) (topic : string) : option MQTTTopic :=
  List.find (λ t, String.eqb topic (buildTopic m (name t))) (topics m).

End Manager.

(** *** Status reports, settings and the maintenance loop *)

Definition with_uptime (u : Z) (s : DeviceStatus) : DeviceStatus :=
  {| status_deviceId := status_deviceId s; chipType := chipType s;
     isConnected := isConnected s; lastUpdateTime := lastUpdateTime s; uptime := u;
     signalStrength := signalStrength s; ipAddress := ipAddress s |}.

Definition with_signalStrength (r : Z) (s : DeviceStatus) : DeviceStatus :=
  {| status_deviceId := status_deviceId s; chipType := chipType s;
     isConnected := isConnected s; lastUpdateTime := lastUpdateTime s;
     uptime := uptime s; signalStrength := r; ipAddress := ipAddress s |}.

Definition with_ipAddress (a : string) (s : DeviceStatus) : DeviceStatus :=
  {| status_deviceId := status_deviceId s; chipType := chipType s;
     isConnected := isConnected s; lastUpdateTime := lastUpdateTime s;
     uptime := uptime s; signalStrength := signalStrength s; ipAddress := a |}.

(** A value of type [uint32_t]. *)
Definition uint32 (z : Z) : Z := (z mod 2 ^ 32)%Z.

Section Maintenance.
Context {json_lib : ArduinoJson} {flash_fs : FlashFS}
  {pubsub_client : PubSubClient} {platform : Platform}
  {inbound : PubSubInbound} {radio : WiFiRadio}.

Definition with_lastStatusPublish (t : Z) (m : MQTTManager) : MQTTManager :=
  {| mqttClient := mqttClient m; topics := topics m; deviceStatus := deviceStatus m;
     baseTopicPrefix := baseTopicPrefix m; deviceId := deviceId m;
     lastStatusPublish := t;
     statusPublishInterval := statusPublishInterval m;
     autoStatusReport := autoStatusReport m; debugEnabled := debugEnabled m |}.

Definition setStatusPublishInterval (intervalMs : Z) (m : MQTTManager) : MQTTManager :=
  {| mqttClient := mqttClient m; topics := topics m; deviceStatus := deviceStatus m;
     baseTopicPrefix := baseTopicPrefix m; deviceId := deviceId m;
     lastStatusPublish := lastStatusPublish m;
     statusPublishInterval := intervalMs;
     autoStatusReport := autoStatusReport m; debugEnabled := debugEnabled m |}.

Definition setAutoStatusReport (enabled : bool) (m : MQTTManager) : MQTTManager :=
  {| mqttClient := mqttClient m; topics := topics m; deviceStatus := deviceStatus m;
     baseTopicPrefix := baseTopicPrefix m; deviceId := deviceId m;
     lastStatusPublish := lastStatusPublish m;
     statusPublishInterval := statusPublishInterval m;
     autoStatusReport := enabled; debugEnabled := debugEnabled m |}.

Definition setDebug (enabled : bool) (m : MQTTManager) : MQTTManager :=
  {| mqttClient := mqttClient m; topics := topics m; deviceStatus := deviceStatus m;
     baseTopicPrefix := baseTopicPrefix m; deviceId := deviceId m;
     lastStatusPublish := lastStatusPublish m;
     statusPublishInterval := statusPublishInterval m;
     autoStatusReport := autoStatusReport m; debugEnabled := enabled |}.

(** [updateStatus(status)]: the argument is copied, then four of its
    members are overwritten from the clock and the WiFi stack. *)
Definition updateStatus (status : DeviceStatus) : Action unit :=
  update (with_deviceStatus status);;
  now ← read_millis;
  update (λ m, with_deviceStatus (with_uptime (uint32 now / 1000) (deviceStatus m)) m);;
  update (λ m, with_deviceStatus
                 (with_signalStrength getWiFiSignalStrength (deviceStatus m)) m);;
  update (λ m, with_deviceStatus (with_ipAddress getLocalIP (deviceStatus m)) m);;
  later ← read_millis;
  update (λ m, with_deviceStatus (with_lastUpdateTime later (deviceStatus m)) m).

(** The document of [publishStatus]. *)
Definition status_document (s : DeviceStatus) (now : Z) : JsonDocument :=
  setMember
    (setMember
       (setMember
          (setMember
             (setMember
                (setMember
                   (setMember (newDocument 512) "device_id" (JString (status_deviceId s)))
                   "chip_type" (JString (chipType s)))
                "is_connected" (JBool (isConnected s)))
             "uptime" (JNumber (uptime s)))
          "signal_strength" (JNumber (signalStrength s)))
       "ip_address" (JString (ipAddress s)))
    "timestamp" (JNumber now).

Definition publishStatus : Action bool :=
  connected ← is_connected;
  if negb connected return Action bool then mret false
  else
    s ← read deviceStatus;
    now ← read_millis;
    fullTopic ← read (λ m, baseTopicPrefix m +:+ "/" +:+ status_deviceId (deviceStatus m)
                            +:+ "/status");
    publishJson fullTopic (status_document s now).

(** The document of [publishCommandResponse]. *)
Definition response_document (command : string) (success : bool) (message : string)
    (now : Z) : JsonDocument :=
  setMember
    (setMember
       (setMember
          (setMember (newDocument 256) "command" (JString command))
          "success" (JBool success))
       "message" (JString message))
    "timestamp" (JNumber now).

Definition publishCommandResponse (command : string) (success : bool)
    (message : string) : Action bool :=
  connected ← is_connected;
  if negb connected return Action bool then mret false
  else
    now ← read_millis;
    fullTopic ← read (λ m, baseTopicPrefix m +:+ "/" +:+ status_deviceId (deviceStatus m)
                            +:+ "/response");
    publishJson fullTopic (response_document command success message now).

(** [mqttClient->loop()]: the client is replaced by the one it leaves and
    the messages handed to the callback are returned.  It is not one of the
    commands recorded on the wire. *)
Definition poll : Action (list (string * string * Z)) :=
  λ w, match mqttClient (manager w) with
       | Some c =>
           let result := client_loop c in
           (result.1, {| manager := with_mqttClient (Some result.2) (manager w);
                         wire := wire w; clockReads := clockReads w |})
       | None => ([], w)
       end.

(** The test [millis() - lastStatusPublish >= statusPublishInterval] of
    [loop], in unsigned 32-bit arithmetic. *)
Definition status_due (now last interval : Z) : bool :=
  (uint32 interval <=? uint32 (now - last))%Z.

(** [loop()]: the handler calls made by the callback while the client runs. *)
Definition loop (cfg : WifiConfig.Config) : Action (list Invocation) :=
  client ← read mqttClient;
  match client with
  | None => mret []
  | Some c =>
      if negb (client_connected c) return Action (list Invocation) then
        connect cfg;;
        mret []
      else
        delivered ← poll;
        m ← read (λ m, m);
        auto ← read autoStatusReport;
        (if (auto : bool) return Action unit then
           now ← read_millis;
           last ← read lastStatusPublish;
           interval ← read statusPublishInterval;
           if status_due now last interval return Action unit then
             publishStatus;;
             later ← read_millis;
             update (with_lastStatusPublish later)
           else mret tt
         else mret tt);;
        mret (concat ((λ msg, onMqttMessage m msg.1.1 msg.1.2 msg.2) <$> delivered))
  end.

End Maintenance.
End MqttManager.

(** ** Reference collaborators

    Small implementations of the four interfaces, to run the embedding on
    concrete inputs: a codec for flat JSON objects (string members and
    [true]/[false], no escapes and no [,] or [:] inside strings; numbers
    are written, not read), a file system that can refuse to open files, a
    broker client that records what it is told, and a clock. *)

Module Reference.
Import MqttManager.

Definition Doc : Type := list (string * JsonValue).

Fixpoint doc_set (d : Doc) (k : string) (v : JsonValue) : Doc :=
  match d with
  | [] => [(k, v)]
  | (k', v') :: rest =>
      if String.eqb k' k then (k, v) :: rest else (k', v') :: doc_set rest k v
  end.

Definition doc_get (d : Doc) (k : string) : option JsonValue :=
  snd <$> List.find (λ kv, String.eqb (fst kv) k) d.

Fixpoint digits (fuel : nat) (n : N) (acc : string) : string :=
  match fuel with
  | O => acc
  | S fuel' =>
      let acc' := String (ascii_of_N (48 + n mod 10)) acc in
      if (n <? 10)%N then acc' else digits fuel' (n / 10)%N acc'
  end.

Definition show_Z (z : Z) : string :=
  let d := digits (S (N.to_nat (N.log2 (Z.abs_N z)))) (Z.abs_N z) EmptyString in
  if (z <? 0)%Z then "-" +:+ d else d.

Definition show (v : JsonValue) : string :=
  match v with
  | JString s => s
  | JBool true => "true"
  | JBool false => "false"
  | JNumber z => show_Z z
  end.

Definition quoted (s : string) : string := dquote +:+ s +:+ dquote.

Definition show_json (v : JsonValue) : string :=
  match v with
  | JString s => quoted s
  | _ => show v
  end.

Fixpoint join (sep : string) (parts : list string) : string :=
  match parts with
  | [] => EmptyString
  | [s] => s
  | s :: rest => s +:+ sep +:+ join sep rest
  end.

Definition doc_serialize (d : Doc) : string :=
  "{" +:+ join "," ((λ kv, quoted (fst kv) +:+ ":" +:+ show_json (snd kv)) <$> d) +:+ "}".

Fixpoint split_on (sep : ascii) (s : string) : list string :=
  match s with
  | EmptyString => [EmptyString]
  | String c rest =>
      if Ascii.eqb c sep then EmptyString :: split_on sep rest
      else match split_on sep rest with
           | part :: parts => String c part :: parts
           | [] => [String c EmptyString]
           end
  end.

(** [s] without its last character, when that character is [c]. *)
Fixpoint strip_last (c : ascii) (s : string) : option string :=
  match s with
  | EmptyString => None
  | String a EmptyString => if Ascii.eqb a c then Some EmptyString else None
  | String a rest => String a <$> strip_last c rest
  end.

Definition between (opening closing : ascii) (s : string) : option string :=
  match s with
  | String a rest => if Ascii.eqb a opening then strip_last closing rest else None
  | EmptyString => None
  end.

Definition parse_value (token : string) : option JsonValue :=
  match between "034" "034" token with
  | Some s => Some (JString s)
  | None =>
      if String.eqb token "true" then Some (JBool true)
      else if String.eqb token "false" then Some (JBool false)
      else None
  end.

Definition parse_member (token : string) : option (string * JsonValue) :=
  match split_on ":" token with
  | [k; v] =>
      k' ← between "034" "034" k;
      v' ← parse_value v;
      Some (k', v')
  | _ => None
  end.

Definition doc_parse (capacity : nat) (text : string) : option Doc :=
  if (capacity <? String.length text)%nat then None
  else
    body ← between "{" "}" text;
    if String.eqb body EmptyString then Some []
    else
      members ← mapM parse_member (split_on "," body);
      Some (fold_left (λ d kv, doc_set d (fst kv) (snd kv)) members []).

#[export] Instance json : ArduinoJson := {|
  JsonDocument := Doc;
  newDocument := λ _, [];
  setMember := doc_set;
  containsKey := λ d k, bool_decide (is_Some (doc_get d k));
  memberAsString := λ d k, match doc_get d k with Some v => show v | None => "null" end;
  deserializeJson := doc_parse;
  serializeJson := doc_serialize
|}.

Record Flash := {
  files : gmap string string;
  jammed : bool
}.

#[export] Instance flash : FlashFS := {|
  FS := Flash;
  fs_exists := λ fs path, bool_decide (is_Some (files fs !! path));
  fs_read := λ fs path, if jammed fs then None else files fs !! path;
  fs_store := λ fs path data,
    if jammed fs then None
    else Some {| files := <[path := data]> (files fs); jammed := false |};
  fs_remove := λ fs path, {| files := delete path (files fs); jammed := jammed fs |}
|}.

Record Broker := {
  accepting : bool;
  up : bool;
  subscribed : list string;
  delivered : list (string * string)
}.

#[export] Instance broker : PubSubClient := {|
  Client := Broker;
  client_connect := λ c _ _,
    (accepting c, {| accepting := accepting c; up := accepting c;
                     subscribed := []; delivered := delivered c |});
  client_connected := up;
  client_subscribe := λ c topic,
    (up c, {| accepting := accepting c; up := up c;
              subscribed := if up c then subscribed c ++ [topic] else subscribed c;
              delivered := delivered c |});
  client_publish := λ c topic payload,
    (up c, {| accepting := accepting c; up := up c; subscribed := subscribed c;
              delivered := if up c then delivered c ++ [(topic, payload)]
                           else delivered c |});
  client_disconnect := λ c,
    {| accepting := accepting c; up := false; subscribed := [];
       delivered := delivered c |}
|}.

#[export] Instance board : Platform := {|
  millis := λ n, (1000 * Z.of_nat n)%Z;
  getLocalIP := "192.168.1.20"
|}.

(** A registry just after boot, with nothing on flash. *)
Definition boot : WifiConfig.Config :=
  {| WifiConfig.configParams := []; WifiConfig.configValues := ∅;
     WifiConfig.fileSystem := {| files := ∅; jammed := false |} |}.

(** A manager for device [device1] under the prefix [home]. *)
Definition device1 (c : Broker) : MQTTManager :=
  new_MQTTManager (Some c) "device1" "home" "ESP32" 0 0.

Definition fresh (m : MQTTManager) : World :=
  {| manager := m; wire := []; clockReads := 0 |}.

(** Registries: the broker address registered with its default, on an
    empty flash and on a flash that holds [text]; a four-character PIN. *)
Definition configured : WifiConfig.Config :=
  WifiConfig.registerParam "mqtt_server" "MQTT Server" "broker.local" 40 boot.

Definition configured_on (text : string) (stuck : bool) : WifiConfig.Config :=
  WifiConfig.with_fileSystem
    {| files := {[WifiConfig.CONFIG_FILE := text]}; jammed := stuck |} configured.

Definition with_pin : WifiConfig.Config :=
  WifiConfig.registerParam "pin" "PIN" "0000" 4 boot.

Definition object1 (k v : string) : string :=
  "{" +:+ quoted k +:+ ":" +:+ quoted v +:+ "}".

(** Brokers: one that accepts connections, one that refuses them, one that
    holds a connection. *)
Definition open_broker : Broker :=
  {| accepting := true; up := false; subscribed := []; delivered := [] |}.

Definition closed_broker : Broker :=
  {| accepting := false; up := false; subscribed := []; delivered := [] |}.

Definition live_broker : Broker :=
  {| accepting := true; up := true; subscribed := []; delivered := [] |}.

(** Managers: [cmd] bound once to both handlers, [cmd] bound once to no
    handler, and [cmd] bound twice. *)
Definition cmd_manager (c : Broker) : MQTTManager :=
  registerTopic "cmd" (Some 1) (Some 2) (device1 c).

Definition mute_manager : MQTTManager :=
  registerTopic "cmd" None None (device1 open_broker).

Definition twice_manager : MQTTManager :=
  registerTopic "cmd" (Some 3) (Some 4) (cmd_manager open_broker).

Fixpoint letters (n : nat) : string :=
  match n with
  | O => EmptyString
  | S n' => String "a" (letters n')
  end.

(** The broker loops back: [loop()] hands over what was published on the
    topics subscribed to, and forgets it. *)
#[export] Instance loopback : PubSubInbound (pubsub_client := broker) := {|
  client_loop := λ c,
    if up c then
      ((λ tp, (tp.1, tp.2, Z.of_nat (String.length tp.2))) <$>
         filter (λ tp, tp.1 ∈ subscribed c) (delivered c),
       {| accepting := accepting c; up := up c; subscribed := subscribed c;
          delivered := [] |})
    else ([], c)
|}.

#[export] Instance radio : WiFiRadio := {| getWiFiSignalStrength := (-61)%Z |}.

(** A broker that holds a connection, is subscribed to [cmd] and has a
    reboot command waiting. *)
Definition busy_broker : Broker :=
  {| accepting := true; up := true; subscribed := ["home/device1/cmd"];
     delivered := [("home/device1/cmd", object1 "command" "reboot")] |}.

(** A client that loses its connection while it runs. *)
Definition dropping : PubSubInbound (pubsub_client := broker) := {|
  client_loop := λ c,
    ([], {| accepting := accepting c; up := false; subscribed := [];
            delivered := delivered c |})
|}.

(** A client that accepts the connection and has lost it by the time it
    is asked: [connect] returns true and [connected()] false. *)
Definition fading : PubSubClient := {|
  Client := Broker;
  client_connect := λ c _ _,
    (true, {| accepting := accepting c; up := false; subscribed := [];
              delivered := delivered c |});
  client_connected := up;
  client_subscribe := λ c topic,
    (false, {| accepting := accepting c; up := up c;
               subscribed := subscribed c; delivered := delivered c |});
  client_publish := λ c topic payload,
    (false, {| accepting := accepting c; up := up c; subscribed := subscribed c;
               delivered := delivered c |});
  client_disconnect := λ c,
    {| accepting := accepting c; up := false; subscribed := [];
       delivered := delivered c |}
|}.

(** [cmd] bound once, over that client. *)
Definition fading_manager : MQTTManager (pubsub_client := fading) :=
  registerTopic (pubsub_client := fading) "cmd" (Some 1) (Some 2)
    (new_MQTTManager (pubsub_client := fading) (Some open_broker)
       "device1" "home" "ESP32" 0 0).

(** The world a successful [connect] leaves. *)
Definition online_world : World :=
  (connect configured (fresh (cmd_manager open_broker))).2.

(** That world once the broker has gone and refuses connections. *)
Definition refused_world : World :=
  {| manager := with_mqttClient (pubsub_client := broker) (Some closed_broker)
                  (manager online_world);
     wire := []; clockReads := 5 |}.

(** A manager built without a client. *)
Definition clientless : MQTTManager :=
  new_MQTTManager None "device1" "home" "ESP32" 0 0.

(** The registry after the broker address was set, and the registry of the
    next boot over the flash that write left. *)
Definition readdressed : WifiConfig.Config :=
  WifiConfig.setConfigValue "mqtt_server" "10.0.0.5" configured.

Definition rebooted : WifiConfig.Config :=
  WifiConfig.with_fileSystem (WifiConfig.fileSystem readdressed) configured.

(** A status as the application hands it to [updateStatus]. *)
Definition reported : DeviceStatus :=
  {| status_deviceId := "device2"; chipType := "ESP8266"; isConnected := true;
     lastUpdateTime := 0; uptime := 0; signalStrength := 0;
     ipAddress := EmptyString |}.

End Reference.

(** ** Properties of the configuration parameter registry *)

Module RegistryProperties.
Import WifiConfig.

Section Facts.
Context {json_lib : ArduinoJson} {flash_fs : FlashFS}.

Implicit Types (k v : string) (p : ConfigParam) (ps : list ConfigParam)
  (vs : gmap string string) (st : Config).

Lemma has_key_true k p : has_key k p = true ↔ key p = k.
Proof. apply String.eqb_eq. Qed.

Lemma has_key_false k p : has_key k p = false ↔ key p ≠ k.
Proof. apply String.eqb_neq. Qed.

Lemma find_param_cons k p ps :
  find_param k (p :: ps) = if has_key k p then Some p else find_param k ps.
Proof. reflexivity. Qed.

Lemma find_param_Some k ps p : find_param k ps = Some p → key p = k ∧ p ∈ ps.
Proof.
  intros Hf. apply find_some in Hf as [Hin Hk].
  split; [by apply has_key_true | by apply list_elem_of_In].
Qed.

Lemma find_param_None k ps : find_param k ps = None ↔ k ∉ key <$> ps.
Proof.
  induction ps as [|p ps IH].
  - split; [set_solver | done].
  - rewrite find_param_cons, fmap_cons, not_elem_of_cons.
    destruct (has_key k p) eqn:E.
    + apply has_key_true in E. split; [done | intros [Hne _]; congruence].
    + apply has_key_false in E. rewrite IH.
      split; [intros ?; split; [congruence | done] | by intros [_ ?]].
Qed.

Lemma find_param_is_Some k ps : is_Some (find_param k ps) ↔ k ∈ key <$> ps.
Proof.
  destruct (find_param k ps) eqn:E.
  - split; [|eauto]. intros _. apply find_param_Some in E as [<- Hin].
    by apply list_elem_of_fmap_2.
  - apply find_param_None in E. split; [by intros [? ?] | done].
Qed.

Lemma find_param_elem p ps :
  NoDup (key <$> ps) → p ∈ ps → find_param (key p) ps = Some p.
Proof.
  induction ps as [|q ps IH]; intros Hnd Hin; [by apply elem_of_nil in Hin|].
  rewrite fmap_cons in Hnd. apply NoDup_cons in Hnd as [Hq Hnd].
  rewrite find_param_cons. apply elem_of_cons in Hin as [->|Hin].
  - by rewrite (proj2 (has_key_true _ _) eq_refl).
  - destruct (has_key (key p) q) eqn:E; [|by apply IH].
    apply has_key_true in E. exfalso. apply Hq. rewrite E.
    by apply list_elem_of_fmap_2.
Qed.

Lemma find_param_app k ps qs :
  find_param k (ps ++ qs) =
    match find_param k ps with Some p => Some p | None => find_param k qs end.
Proof.
  induction ps as [|p ps IH]; [done|].
  rewrite <- app_comm_cons, !find_param_cons. by destruct (has_key k p).
Qed.

(** *** The loop of [setConfigValue] *)

Lemma assign_first_None k v ps : assign_first k v ps = None ↔ find_param k ps = None.
Proof.
  induction ps as [|p ps IH]; [done|]. cbn [assign_first]. rewrite find_param_cons.
  destruct (has_key k p); [done|].
  destruct (assign_first k v ps); simpl; [|by rewrite <- IH].
  split; [done | intros Hn; by apply IH in Hn].
Qed.

Lemma assign_first_keys k v ps ps' :
  assign_first k v ps = Some ps' → key <$> ps' = key <$> ps.
Proof.
  revert ps'. induction ps as [|p ps IH]; intros ps'; [done|]. cbn [assign_first].
  destruct (has_key k p).
  - by intros [= <-].
  - destruct (assign_first k v ps) as [qs|]; [|done]. intros [= <-].
    rewrite !fmap_cons. f_equal. by apply IH.
Qed.

Lemma assign_first_find k v ps ps' k' :
  assign_first k v ps = Some ps' →
  find_param k' ps' =
    if decide (k' = k) then with_value v <$> find_param k ps else find_param k' ps.
Proof.
  revert ps'. induction ps as [|p ps IH]; intros ps'; [done|]. cbn [assign_first].
  rewrite !find_param_cons. destruct (has_key k p) eqn:E.
  - intros [= <-]. rewrite find_param_cons. unfold has_key at 1. simpl.
    fold (has_key k' p). apply has_key_true in E.
    case_decide as Hk; subst.
    + by rewrite (proj2 (has_key_true _ _) eq_refl).
    + by rewrite (proj2 (has_key_false k' p)) by congruence.
  - destruct (assign_first k v ps) as [qs|]; [|done]. intros [= <-].
    rewrite find_param_cons. specialize (IH qs eq_refl).
    case_decide as Hk; subst.
    + by rewrite E.
    + by destruct (has_key k' p).
Qed.

(** *** Loops that assign at every parameter *)

Lemma assign_params_keys upd ps : key <$> assign_params upd ps = key <$> ps.
Proof.
  unfold assign_params. rewrite <- list_fmap_compose. apply list_fmap_ext.
  intros _ p _. simpl. by destruct (upd p).
Qed.

Lemma assign_params_find upd k ps :
  find_param k (assign_params upd ps) =
    (λ p, match upd p with Some v => with_value v p | None => p end) <$> find_param k ps.
Proof.
  induction ps as [|p ps IH]; [done|].
  change (assign_params upd (p :: ps)) with
    ((match upd p with Some v => with_value v p | None => p end)
       :: assign_params upd ps).
  rewrite !find_param_cons, IH.
  assert (has_key k (match upd p with Some v => with_value v p | None => p end)
          = has_key k p) as -> by (by destruct (upd p)).
  by destruct (has_key k p).
Qed.

Lemma assign_values_other upd k ps vs :
  k ∉ key <$> ps → assign_values upd ps vs !! k = vs !! k.
Proof.
  revert vs. induction ps as [|p ps IH]; intros vs Hk; [done|].
  rewrite fmap_cons in Hk. apply not_elem_of_cons in Hk as [Hp Hk].
  unfold assign_values in *. simpl. rewrite IH by done.
  destruct (upd p); [|done]. by rewrite lookup_insert_ne.
Qed.

Lemma assign_values_find upd k ps vs :
  NoDup (key <$> ps) →
  assign_values upd ps vs !! k =
    match find_param k ps with
    | Some p => match upd p with Some v => Some v | None => vs !! k end
    | None => vs !! k
    end.
Proof.
  revert vs. induction ps as [|p ps IH]; intros vs Hnd; [done|].
  rewrite fmap_cons in Hnd. apply NoDup_cons in Hnd as [Hp Hnd].
  rewrite find_param_cons. destruct (has_key k p) eqn:E.
  - apply has_key_true in E. subst k.
    change (assign_values upd (p :: ps) vs) with
      (assign_values upd ps (match upd p with Some v => <[key p:=v]> vs | None => vs end)).
    rewrite assign_values_other by done.
    destruct (upd p); [by rewrite lookup_insert_eq | done].
  - apply has_key_false in E.
    change (assign_values upd (p :: ps) vs) with
      (assign_values upd ps (match upd p with Some v => <[key p:=v]> vs | None => vs end)).
    rewrite IH by done.
    assert ((match upd p with Some v => <[key p:=v]> vs | None => vs end) !! k = vs !! k)
      as -> by (destruct (upd p); [by rewrite lookup_insert_ne | done]).
    done.
Qed.

(** When the value assigned depends on the key alone, as in [readConfig],
    parameters that share a key get the same value and no uniqueness is
    needed. *)
Lemma assign_values_by_key (f : string → option string) k ps vs :
  k ∈ key <$> ps →
  assign_values (λ p, f (key p)) ps vs !! k =
    match f k with Some v => Some v | None => vs !! k end.
Proof.
  revert vs. induction ps as [|p ps IH]; intros vs Hk; [by apply elem_of_nil in Hk|].
  change (assign_values (λ p, f (key p)) (p :: ps) vs) with
    (assign_values (λ p, f (key p)) ps
       (match f (key p) with Some v => <[key p:=v]> vs | None => vs end)).
  destruct (decide (k ∈ key <$> ps)) as [Hin|Hout].
  - rewrite IH by done. destruct (f k) eqn:Ek; [done|].
    destruct (decide (key p = k)) as [->|Hne].
    + by rewrite Ek.
    + destruct (f (key p)); [by rewrite lookup_insert_ne | done].
  - rewrite assign_values_other by done.
    rewrite fmap_cons in Hk. apply elem_of_cons in Hk as [->|Hk]; [|done].
    destruct (f (key p)); [by rewrite lookup_insert_eq | done].
Qed.

(** *** The vector and the map stay in step *)

Lemma in_sync_with_fileSystem fs st : in_sync st → in_sync (with_fileSystem fs st).
Proof. done. Qed.

Lemma in_sync_saveConfig st : in_sync st → in_sync (snd (saveConfig st)).
Proof. unfold saveConfig. by destruct (fs_store _ _ _). Qed.

Lemma in_sync_registerParam k l d m st : in_sync st → in_sync (registerParam k l d m st).
Proof.
  intros [Hnd Hvs]. unfold registerParam.
  destruct (find_param k (configParams st)) eqn:E; [done|].
  split; simpl.
  - rewrite fmap_app. apply NoDup_app. split; [done|]. split.
    + intros x Hx ->%list_elem_of_singleton. by apply find_param_None in E.
    + apply NoDup_singleton.
  - intros k'. rewrite find_param_app, find_param_cons. unfold has_key at 1. simpl.
    destruct (decide (k = k')) as [<-|Hne].
    + by rewrite lookup_insert_eq, E, String.eqb_refl.
    + rewrite lookup_insert_ne, Hvs, (proj2 (String.eqb_neq k k')) by done.
      by destruct (find_param k' (configParams st)).
Qed.

Lemma erase_first_find k ps ps' :
  NoDup (key <$> ps) → erase_first k ps = Some ps' →
  NoDup (key <$> ps') ∧
  ∀ k', find_param k' ps' = if decide (k' = k) then None else find_param k' ps.
Proof.
  revert ps'. induction ps as [|p ps IH]; intros ps' Hnd; [done|]. cbn [erase_first].
  rewrite fmap_cons in Hnd. apply NoDup_cons in Hnd as [Hp Hnd].
  destruct (has_key k p) eqn:E.
  - intros [= <-]. split; [done|]. intros k'. rewrite find_param_cons.
    apply has_key_true in E. case_decide as Hk; subst.
    + by apply find_param_None.
    + by rewrite (proj2 (has_key_false k' p)) by congruence.
  - destruct (erase_first k ps) as [qs|] eqn:Eq; [|done]. intros [= <-].
    destruct (IH qs Hnd eq_refl) as [Hnd' Hfind]. split.
    + rewrite fmap_cons. apply NoDup_cons. split; [|done].
      intros Hin. apply find_param_is_Some in Hin as [q Hq].
      rewrite Hfind in Hq. case_decide; [done|].
      apply Hp, find_param_is_Some. eauto.
    + intros k'. rewrite !find_param_cons, Hfind.
      case_decide as Hk; subst; [by rewrite E|done].
Qed.

Lemma in_sync_unregisterParam k st : in_sync st → in_sync (unregisterParam k st).
Proof.
  intros [Hnd Hvs]. unfold unregisterParam.
  destruct (erase_first k (configParams st)) as [ps|] eqn:E; [|done].
  destruct (erase_first_find _ _ _ Hnd E) as [Hnd' Hfind].
  split; [done|]. intros k'. simpl. rewrite Hfind.
  case_decide as Hk; subst.
  - by rewrite lookup_delete_eq.
  - rewrite lookup_delete_ne by done. apply Hvs.
Qed.

Lemma in_sync_assign_all upd st : in_sync st → in_sync (assign_all upd st).
Proof.
  intros [Hnd Hvs]. split; simpl.
  - by rewrite assign_params_keys.
  - intros k. rewrite assign_params_find, assign_values_find, Hvs by done.
    destruct (find_param k (configParams st)) as [p|]; [|done]. simpl.
    by destruct (upd p).
Qed.

Lemma in_sync_setConfigValue k v st : in_sync st → in_sync (setConfigValue k v st).
Proof.
  intros [Hnd Hvs]. unfold setConfigValue.
  destruct (assign_first k v (configParams st)) as [ps|] eqn:E; [|done].
  apply in_sync_saveConfig. split; simpl.
  - by rewrite (assign_first_keys _ _ _ _ E).
  - intros k'. rewrite (assign_first_find _ _ _ _ k' E).
    case_decide as Hk; subst.
    + rewrite lookup_insert_eq.
      destruct (find_param k (configParams st)) eqn:Ef; [done|].
      apply assign_first_None with (v := v) in Ef. congruence.
    + rewrite lookup_insert_ne by done. apply Hvs.
Qed.

Lemma in_sync_readConfig st : in_sync st → in_sync (snd (readConfig st)).
Proof.
  intros Hst. unfold readConfig.
  destruct (negb _); [done|]. destruct (fs_read _ _); [|done].
  destruct (deserializeJson _ _); [|done]. by apply in_sync_assign_all.
Qed.

Lemma reachable_in_sync st : reachable st → in_sync st.
Proof.
  induction 1.
  - split; [apply NoDup_nil_2 | done].
  - by apply in_sync_registerParam.
  - by apply in_sync_unregisterParam.
  - split; [apply NoDup_nil_2 | done].
  - by apply in_sync_setConfigValue.
  - by apply in_sync_readConfig.
  - by apply in_sync_saveConfig.
  - unfold loadConfigFromWiFiManager. destruct (existsb _ _).
    + by apply in_sync_saveConfig, in_sync_assign_all.
    + by apply in_sync_assign_all.
  - unfold resetConfig. by apply in_sync_assign_all, in_sync_with_fileSystem.
Qed.

(** *** Reading and writing a value *)

(** C8.  In every state the firmware can reach, [getConfigValue] returns
    the empty string for a key that no parameter of the registry has, and
    for the key of a registered parameter it returns that parameter's
    current value. *)
Theorem getConfigValue_registered st :
  reachable st →
  (∀ k, k ∉ key <$> configParams st → getConfigValue k st = EmptyString) ∧
  (∀ p, p ∈ configParams st → getConfigValue (key p) st = value p).
Proof.
  intros [Hnd Hvs]%reachable_in_sync. unfold getConfigValue. split.
  - intros k Hk. apply find_param_None in Hk. by rewrite Hvs, Hk.
  - intros p Hp. by rewrite Hvs, (find_param_elem _ _ Hnd Hp).
Qed.

(** C2, as the code has it.  For a registered key, [setConfigValue] stores
    the value whatever its length: the first parameter with that key holds
    it, the map holds it and [getConfigValue] returns it.  For a key that
    is not registered nothing changes, the file system included. *)
Theorem setConfigValue_then_get k v st :
  (k ∈ key <$> configParams st →
     getConfigValue k (setConfigValue k v st) = v ∧
     configValues (setConfigValue k v st) !! k = Some v ∧
     value <$> find_param k (configParams (setConfigValue k v st)) = Some v ∧
     key <$> configParams (setConfigValue k v st) = key <$> configParams st) ∧
  (k ∉ key <$> configParams st → setConfigValue k v st = st).
Proof.
  unfold setConfigValue, getConfigValue. split.
  - intros [p Hp]%find_param_is_Some.
    destruct (assign_first k v (configParams st)) as [ps|] eqn:E.
    + assert (∀ st', configParams (snd (saveConfig st')) = configParams st' ∧
                     configValues (snd (saveConfig st')) = configValues st') as Hsave.
      { intros st'. unfold saveConfig. by destruct (fs_store _ _ _). }
      destruct (Hsave (with_registry ps (<[k:=v]> (configValues st)) st)) as [-> ->].
      simpl. rewrite lookup_insert_eq, (assign_first_find _ _ _ _ k E), Hp.
      rewrite decide_True by done. by rewrite (assign_first_keys _ _ _ _ E).
    + apply assign_first_None in E. congruence.
  - intros Hk%find_param_None. apply assign_first_None with (v := v) in Hk.
    by rewrite Hk.
Qed.

(** *** Loading the saved document *)

(** C7.  [readConfig] returns false and leaves the state as it is when the
    file is missing, does not open or does not parse.  Otherwise it returns
    true; every parameter whose key the document has gets the document's
    value for that key, in the vector and in the map, and every other
    parameter, and every key of the map that is not registered, stays as
    it is. *)
Theorem readConfig_spec st :
  (fs_exists (fileSystem st) CONFIG_FILE = false → readConfig st = (false, st)) ∧
  (fs_read (fileSystem st) CONFIG_FILE = None → readConfig st = (false, st)) ∧
  (∀ text, fs_read (fileSystem st) CONFIG_FILE = Some text →
     deserializeJson 2048 text = None → readConfig st = (false, st)) ∧
  (∀ text doc,
     fs_exists (fileSystem st) CONFIG_FILE = true →
     fs_read (fileSystem st) CONFIG_FILE = Some text →
     deserializeJson 2048 text = Some doc →
     ∃ st', readConfig st = (true, st') ∧
       fileSystem st' = fileSystem st ∧
       length (configParams st') = length (configParams st) ∧
       (∀ i p, configParams st !! i = Some p →
          configParams st' !! i =
            Some (if containsKey doc (key p)
                  then with_value (memberAsString doc (key p)) p else p)) ∧
       (∀ i p, configParams st !! i = Some p →
          ∃ p', configParams st' !! i = Some p' ∧
            key p' = key p ∧ label p' = label p ∧
            defaultValue p' = defaultValue p ∧ maxLength p' = maxLength p ∧
            value p' = if containsKey doc (key p)
                       then memberAsString doc (key p) else value p) ∧
       (∀ k, k ∈ key <$> configParams st →
          configValues st' !! k =
            if containsKey doc k then Some (memberAsString doc k)
            else configValues st !! k) ∧
       (∀ k, k ∉ key <$> configParams st →
          configValues st' !! k = configValues st !! k)).
Proof.
  unfold readConfig. repeat split.
  - by intros ->.
  - intros ->. by destruct (negb _).
  - intros text -> ->. by destruct (negb _).
  - intros text doc -> -> ->. simpl. eexists. split; [done|]. simpl.
    split; [done|]. split; [apply length_fmap|]. split; [|split; [|split]].
    + intros i p Hi. unfold assign_params, stored_value.
      rewrite list_lookup_fmap, Hi. simpl. by destruct (containsKey doc (key p)).
    + intros i p Hi. unfold assign_params, stored_value.
      rewrite list_lookup_fmap, Hi. simpl. eexists. split; [done|].
      by destruct (containsKey doc (key p)).
    + intros k Hk.
      rewrite (assign_values_by_key
                 (λ k, if containsKey doc k then Some (memberAsString doc k) else None))
        by done.
      by destruct (containsKey doc k).
    + intros k Hk. by apply assign_values_other.
Qed.

End Facts.

(** *** Registering, removing and restoring *)

Section Lifetime.
Context {json_lib : ArduinoJson} {flash_fs : FlashFS}.

Implicit Types (k v : string) (p : ConfigParam) (ps : list ConfigParam)
  (vs : gmap string string) (st : Config).

Lemma in_sync_get st p :
  in_sync st → p ∈ configParams st → getConfigValue (key p) st = value p.
Proof.
  intros [Hnd Hvs] Hp. unfold getConfigValue.
  by rewrite Hvs, (find_param_elem _ _ Hnd Hp).
Qed.

Lemma in_sync_get_unknown st k :
  in_sync st → k ∉ key <$> configParams st → getConfigValue k st = EmptyString.
Proof.
  intros [_ Hvs] Hk%find_param_None. unfold getConfigValue. by rewrite Hvs, Hk.
Qed.

Lemma erase_first_None k ps : erase_first k ps = None ↔ find_param k ps = None.
Proof.
  induction ps as [|p ps IH]; [done|]. cbn [erase_first]. rewrite find_param_cons.
  destruct (has_key k p); [done|].
  destruct (erase_first k ps); simpl; [|by rewrite <- IH].
  split; [done | intros Hn; by apply IH in Hn].
Qed.

Lemma erase_first_last k ps q :
  find_param k ps = None → key q = k → erase_first k (ps ++ [q]) = Some ps.
Proof.
  intros Hnone Hq. induction ps as [|p ps IH].
  - simpl. by rewrite (proj2 (has_key_true k q)).
  - rewrite find_param_cons in Hnone. rewrite <- app_comm_cons. cbn [erase_first].
    destruct (has_key k p); [done|]. by rewrite IH.
Qed.

(** X1.  A key is registered once: a second [registerParam] with a key
    that is already there changes nothing, whatever label, default and
    length it brings. *)
Theorem registerParam_first_wins k l1 d1 m1 l2 d2 m2 st :
  registerParam k l2 d2 m2 (registerParam k l1 d1 m1 st) = registerParam k l1 d1 m1 st.
Proof.
  unfold registerParam at 2 3.
  destruct (find_param k (configParams st)) as [p|] eqn:E.
  - unfold registerParam. by rewrite E.
  - unfold registerParam. simpl. rewrite find_param_app, E, find_param_cons.
    by rewrite (proj2 (has_key_true k _)).
Qed.

(** X2.  In every state the firmware can reach, no two parameters share a
    key, the keys of the map are the keys of the vector, and the map has as
    many entries as the vector has parameters. *)
Theorem reachable_keys_unique st :
  reachable st →
  NoDup (key <$> configParams st) ∧
  dom (configValues st) = list_to_set (key <$> configParams st) ∧
  size (configValues st) = length (configParams st).
Proof.
  intros [Hnd Hvs]%reachable_in_sync.
  assert (dom (configValues st) = list_to_set (key <$> configParams st)) as Hdom.
  { apply set_eq. intros k.
    rewrite elem_of_dom, elem_of_list_to_set, <- find_param_is_Some, Hvs.
    by rewrite fmap_is_Some. }
  split; [done|]. split; [done|].
  rewrite <- size_dom, Hdom, size_list_to_set by done. apply length_fmap.
Qed.

(** X3.  After [registerParam] of a key that was not registered,
    [getConfigValue] returns the default given; the parameters that were
    registered, one with the same key included, keep their values. *)
Theorem registerParam_then_get k l d m st :
  reachable st →
  (k ∉ key <$> configParams st → getConfigValue k (registerParam k l d m st) = d) ∧
  (∀ p, p ∈ configParams st →
     getConfigValue (key p) (registerParam k l d m st) = value p).
Proof.
  intros Hreach.
  pose proof (in_sync_registerParam k l d m st (reachable_in_sync _ Hreach)) as Hnew.
  split.
  - intros Hk%find_param_None. unfold registerParam in *. rewrite Hk in *.
    unfold getConfigValue. simpl. by rewrite lookup_insert_eq.
  - intros p Hp. apply in_sync_get; [done|]. unfold registerParam.
    destruct (find_param k (configParams st)); [done|]. simpl.
    apply elem_of_app. by left.
Qed.

(** X4.  After [unregisterParam] the key is gone from the vector and
    [getConfigValue] returns the empty string for it; every other
    parameter is still there with its value; for a key that is not
    registered nothing changes. *)
Theorem unregisterParam_spec k st :
  reachable st →
  (k ∉ key <$> configParams (unregisterParam k st)) ∧
  getConfigValue k (unregisterParam k st) = EmptyString ∧
  (∀ p, p ∈ configParams st → key p ≠ k →
     p ∈ configParams (unregisterParam k st) ∧
     getConfigValue (key p) (unregisterParam k st) = value p) ∧
  (k ∉ key <$> configParams st → unregisterParam k st = st).
Proof.
  intros Hst%reachable_in_sync.
  pose proof (in_sync_unregisterParam k st Hst) as Hnew.
  assert (k ∉ key <$> configParams (unregisterParam k st)) as Hgone.
  { apply find_param_None. unfold unregisterParam.
    destruct (erase_first k (configParams st)) as [ps|] eqn:E.
    - destruct (erase_first_find _ _ _ (proj1 Hst) E) as [_ Hfind]. simpl.
      by rewrite Hfind, decide_True.
    - by apply erase_first_None. }
  split; [done|]. split; [by apply in_sync_get_unknown|]. split.
  - intros p Hp Hne.
    assert (p ∈ configParams (unregisterParam k st)) as Hin.
    { unfold unregisterParam.
      destruct (erase_first k (configParams st)) as [ps|] eqn:E; [|done].
      destruct (erase_first_find _ _ _ (proj1 Hst) E) as [_ Hfind]. simpl.
      assert (find_param (key p) ps = Some p) as Hf.
      { rewrite Hfind, decide_False by done. apply find_param_elem; [apply Hst | done]. }
      by apply find_param_Some in Hf as [_ ?]. }
    split; [done|]. by apply in_sync_get.
  - intros Hk%find_param_None%erase_first_None. unfold unregisterParam. by rewrite Hk.
Qed.

(** X5.  Registering a key that is not there and removing it again gives
    the state back as it was. *)
Theorem registerParam_unregisterParam k l d m st :
  reachable st →
  k ∉ key <$> configParams st →
  unregisterParam k (registerParam k l d m st) = st.
Proof.
  intros [_ Hvs]%reachable_in_sync Hk%find_param_None.
  unfold registerParam. rewrite Hk. unfold unregisterParam. simpl.
  rewrite erase_first_last by done. unfold with_registry. simpl.
  rewrite delete_insert_id by (by rewrite Hvs, Hk). by destruct st.
Qed.

End Lifetime.

(** *** Saving, loading and resetting *)

Section Persistence.
Context {json_lib : ArduinoJson} {flash_fs : FlashFS}.

Implicit Types (k v : string) (p : ConfigParam) (ps : list ConfigParam)
  (vs : gmap string string) (st : Config).

(** A loop that assigns nothing new changes nothing. *)
Lemma assign_values_same upd ps vs :
  (∀ p, p ∈ ps →
     upd p = None ∨ (upd p = Some (value p) ∧ vs !! key p = Some (value p))) →
  assign_values upd ps vs = vs.
Proof.
  unfold assign_values. induction ps as [|q qs IH]; intros Hsame; [done|]. simpl.
  destruct (Hsame q) as [-> | [-> Hq]]; [by left | | rewrite insert_id by done];
    apply IH; intros p Hp; apply Hsame; by right.
Qed.

Lemma assign_all_same upd st :
  (∀ p, p ∈ configParams st →
     upd p = None ∨
     (upd p = Some (value p) ∧ configValues st !! key p = Some (value p))) →
  assign_all upd st = st.
Proof.
  destruct st as [ps vs fs]. unfold assign_all, with_registry. simpl. intros Hsame.
  rewrite assign_values_same by done.
  assert (assign_params upd ps = ps) as ->; [|done].
  unfold assign_params. rewrite <- (list_fmap_id ps) at 2.
  apply list_fmap_ext. intros i p Hi.
  destruct (Hsame p) as [-> | [-> _]]; [by eapply list_elem_of_lookup_2 | done |].
  by destruct p.
Qed.

Lemma saveConfig_registry st :
  configParams (saveConfig st).2 = configParams st ∧
  configValues (saveConfig st).2 = configValues st.
Proof. unfold saveConfig. by destruct (fs_store _ _ _). Qed.

(** X6.  When the file does not open for writing, [setConfigValue] has
    changed the value in memory all the same: [getConfigValue] returns the
    new value and the file system is as it was. *)
Theorem setConfigValue_unsaved k v st :
  k ∈ key <$> configParams st →
  (∀ data, fs_store (fileSystem st) CONFIG_FILE data = None) →
  getConfigValue k (setConfigValue k v st) = v ∧
  fileSystem (setConfigValue k v st) = fileSystem st.
Proof.
  intros [p Hp]%find_param_is_Some Hfail. unfold setConfigValue.
  destruct (assign_first k v (configParams st)) as [ps|] eqn:E.
  - unfold saveConfig, getConfigValue. simpl. rewrite Hfail. simpl.
    by rewrite lookup_insert_eq.
  - apply assign_first_None in E. congruence.
Qed.

(** X7.  The portal cannot clear a value and rewrites nothing it does not
    change: when every widget is empty or holds its parameter's current
    value, [loadConfigFromWiFiManager] leaves the state as it is, the file
    system included. *)
Theorem loadConfigFromWiFiManager_unchanged getValue st :
  (∀ p, p ∈ configParams st →
     getValue (key p) = EmptyString ∨ getValue (key p) = value p) →
  loadConfigFromWiFiManager getValue st = st.
Proof.
  intros Hsame.
  assert (∀ p, p ∈ configParams st → portal_value getValue p = None) as Hnone.
  { intros p Hp. unfold portal_value.
    destruct (Hsame p Hp) as [-> | ->]; [done|].
    rewrite String.eqb_refl. simpl. by rewrite andb_false_r. }
  unfold loadConfigFromWiFiManager.
  assert (existsb (λ p, bool_decide (is_Some (portal_value getValue p)))
            (configParams st) = false) as ->.
  { apply not_true_is_false. intros (p & Hp & Hsome)%existsb_exists.
    apply list_elem_of_In in Hp. rewrite (Hnone p Hp) in Hsome.
    apply bool_decide_eq_true in Hsome. by destruct Hsome. }
  apply assign_all_same. intros p Hp. left. by apply Hnone.
Qed.

(** X8.  After [loadConfigFromWiFiManager], in a state the firmware can
    reach, a parameter whose widget is not empty holds the widget's text
    and a parameter whose widget is empty holds what it held. *)
Theorem loadConfigFromWiFiManager_values getValue st p :
  reachable st →
  p ∈ configParams st →
  getConfigValue (key p) (loadConfigFromWiFiManager getValue st) =
    if decide (getValue (key p) = EmptyString) then value p else getValue (key p).
Proof.
  intros Hreach Hp.
  pose proof (reachable_in_sync _ (reach_loadConfigFromWiFiManager getValue st Hreach))
    as [_ Hvs].
  destruct (reachable_in_sync _ Hreach) as [Hnd _].
  unfold getConfigValue. rewrite Hvs.
  assert (configParams (loadConfigFromWiFiManager getValue st) =
          assign_params (portal_value getValue) (configParams st)) as ->.
  { unfold loadConfigFromWiFiManager. destruct (existsb _ _); [|done].
    apply saveConfig_registry. }
  rewrite assign_params_find, (find_param_elem _ _ Hnd Hp). simpl.
  unfold portal_value. case_decide as Hempty.
  - by rewrite Hempty.
  - assert ((0 <? String.length (getValue (key p)))%nat = true) as ->.
    { apply Nat.ltb_lt. destruct (getValue (key p)); [done | simpl; lia]. }
    simpl. destruct (String.eqb_spec (getValue (key p)) (value p)) as [->|]; done.
Qed.

(** X9.  [resetConfig] keeps the parameters and their order and gives each
    its default back; where a removed file no longer exists, a
    [readConfig] after it finds nothing to load. *)
Theorem resetConfig_spec {flash_ok : FlashFSLaws} st :
  reachable st →
  key <$> configParams (resetConfig st) = key <$> configParams st ∧
  (∀ p, p ∈ configParams (resetConfig st) → value p = defaultValue p) ∧
  (∀ p, p ∈ configParams st →
     getConfigValue (key p) (resetConfig st) = defaultValue p) ∧
  readConfig (resetConfig st) = (false, resetConfig st).
Proof.
  intros Hreach.
  pose proof (reachable_in_sync _ (reach_resetConfig st Hreach)) as [_ Hvs].
  destruct (reachable_in_sync _ Hreach) as [Hnd _].
  split; [apply assign_params_keys|]. split; [|split].
  - intros p [q [-> _]]%list_elem_of_fmap. done.
  - intros p Hp. unfold getConfigValue. rewrite Hvs.
    change (configParams (resetConfig st)) with
      (assign_params (λ p, Some (defaultValue p)) (configParams st)).
    by rewrite assign_params_find, (find_param_elem _ _ Hnd Hp).
  - unfold readConfig.
    assert (fs_exists (fileSystem (resetConfig st)) CONFIG_FILE = false) as ->; [|done].
    simpl. destruct (fs_exists (fileSystem st) CONFIG_FILE) eqn:E; [|done].
    apply fs_remove_exists.
Qed.

Section Codec.
Context {json_ok : ArduinoJsonLaws} {flash_ok : FlashFSLaws}.

Lemma fold_setMember_contains ps doc k :
  containsKey
    (fold_left (λ doc p, setMember doc (key p) (JString (value p))) ps doc) k
  = bool_decide (k ∈ key <$> ps) || containsKey doc k.
Proof.
  revert doc. induction ps as [|p ps IH]; intros doc; [done|]. simpl.
  rewrite IH, containsKey_setMember.
  destruct (decide (key p = k)) as [<-|Hne].
  - rewrite (bool_decide_eq_true_2 (key p ∈ key p :: _)) by apply list_elem_of_here.
    by rewrite orb_true_r.
  - destruct (decide (k ∈ key <$> ps)) as [Hin|Hout].
    + rewrite !bool_decide_eq_true_2; [done | by apply list_elem_of_further | done].
    + rewrite !bool_decide_eq_false_2; [done | | done].
      intros [->|?]%elem_of_cons; done.
Qed.

Lemma fold_setMember_other ps doc k :
  k ∉ key <$> ps →
  memberAsString
    (fold_left (λ doc p, setMember doc (key p) (JString (value p))) ps doc) k
  = memberAsString doc k.
Proof.
  revert doc. induction ps as [|p ps IH]; intros doc Hk; [done|]. simpl.
  rewrite fmap_cons in Hk. apply not_elem_of_cons in Hk as [Hne Hk].
  rewrite IH, memberAsString_setMember by done. by rewrite decide_False.
Qed.

(** The document [saveConfig] writes answers with each parameter's value. *)
Lemma config_document_member ps p :
  NoDup (key <$> ps) → p ∈ ps →
  containsKey (config_document ps) (key p) = true ∧
  memberAsString (config_document ps) (key p) = value p.
Proof.
  intros Hnd Hp. unfold config_document. split.
  - rewrite fold_setMember_contains, bool_decide_eq_true_2; [done|].
    by apply list_elem_of_fmap_2.
  - generalize (newDocument 2048). induction ps as [|q ps IH]; intros doc.
    { by apply elem_of_nil in Hp. }
    rewrite fmap_cons in Hnd. apply NoDup_cons in Hnd as [Hq Hnd]. simpl.
    apply elem_of_cons in Hp as [->|Hp].
    + rewrite fold_setMember_other, memberAsString_setMember by done.
      by rewrite decide_True.
    + by apply IH.
Qed.

Lemma config_document_absent ps k :
  k ∉ key <$> ps → containsKey (config_document ps) k = false.
Proof.
  intros Hk. unfold config_document.
  by rewrite fold_setMember_contains, bool_decide_eq_false_2, containsKey_newDocument.
Qed.

Lemma assign_values_stored doc ps vs k :
  k ∈ key <$> ps →
  assign_values (stored_value doc) ps vs !! k =
    if containsKey doc k then Some (memberAsString doc k) else vs !! k.
Proof.
  intros Hk.
  pose proof (assign_values_by_key
                (λ k, if containsKey doc k then Some (memberAsString doc k) else None)
                k ps vs Hk) as Heq.
  unfold stored_value. rewrite Heq. by destruct (containsKey doc k).
Qed.

(** [readConfig] on a file system that holds the document of [saved]. *)
Lemma readConfig_saved (saved : list ConfigParam) st :
  NoDup (key <$> saved) →
  fs_exists (fileSystem st) CONFIG_FILE = true →
  fs_read (fileSystem st) CONFIG_FILE = Some (serializeJson (config_document saved)) →
  deserializeJson 2048 (serializeJson (config_document saved))
  = Some (config_document saved) →
  ∃ st', readConfig st = (true, st') ∧
    configParams st' = assign_params (stored_value (config_document saved)) (configParams st) ∧
    fileSystem st' = fileSystem st ∧
    (∀ p, p ∈ saved → key p ∈ key <$> configParams st →
       getConfigValue (key p) st' = value p) ∧
    (∀ k, k ∉ key <$> saved → getConfigValue k st' = getConfigValue k st).
Proof.
  intros Hnd Hexists Hread Hparse. unfold readConfig.
  rewrite Hexists, Hread, Hparse. simpl. eexists. split; [done|].
  split; [done|]. split; [done|]. unfold getConfigValue. simpl. split.
  - intros p Hp Hk. destruct (config_document_member _ _ Hnd Hp) as [Hc Hm].
    by rewrite assign_values_stored, Hc, Hm.
  - intros k Hk. pose proof (config_document_absent _ _ Hk) as Hc.
    destruct (decide (k ∈ key <$> configParams st)) as [Hin|Hout].
    + by rewrite assign_values_stored, Hc.
    + by rewrite assign_values_other.
Qed.

(** X10.  What [saveConfig] wrote, a registry loads after a restart: when
    the written text parses back to the document, [readConfig] on any
    registry over that file system returns true, gives every parameter it
    shares with the saved registry the saved value, and leaves the keys
    that were not saved as they are. *)
Theorem saveConfig_readConfig_restart st saved st' :
  reachable st →
  saveConfig st = (true, saved) →
  deserializeJson 2048 (serializeJson (config_document (configParams st)))
  = Some (config_document (configParams st)) →
  fileSystem st' = fileSystem saved →
  ∃ loaded, readConfig st' = (true, loaded) ∧
    (∀ p, p ∈ configParams st → key p ∈ key <$> configParams st' →
       getConfigValue (key p) loaded = value p) ∧
    (∀ k, k ∉ key <$> configParams st →
       getConfigValue k loaded = getConfigValue k st').
Proof.
  intros [Hnd _]%reachable_in_sync Hsave Hparse Hfs. unfold saveConfig in Hsave.
  destruct (fs_store _ _ _) as [fs|] eqn:Hstore; [|done].
  injection Hsave as <-. simpl in Hfs.
  destruct (readConfig_saved (configParams st) st' Hnd) as (loaded & ? & _ & _ & ? & ?);
    rewrite ?Hfs; eauto using fs_store_exists, fs_store_read.
Qed.

End Codec.

(** X11.  Saving and loading at once is a round trip.  For a JSON library
    that keeps [ArduinoJsonLaws] and a file system that keeps
    [FlashFSLaws]: when the written text parses back to the document,
    [readConfig] after a successful [saveConfig] returns true and leaves
    the state exactly as it is. *)
Theorem saveConfig_readConfig {json_ok : ArduinoJsonLaws} {flash_ok : FlashFSLaws}
    st saved :
  reachable st →
  saveConfig st = (true, saved) →
  deserializeJson 2048 (serializeJson (config_document (configParams st)))
  = Some (config_document (configParams st)) →
  readConfig saved = (true, saved).
Proof.
  intros Hreach Hsave Hparse.
  destruct (reachable_in_sync _ Hreach) as [Hnd Hvs]. unfold saveConfig in Hsave.
  destruct (fs_store _ _ _) as [fs|] eqn:Hstore; [|done]. injection Hsave as <-.
  unfold readConfig. simpl.
  rewrite (fs_store_exists _ _ _ _ Hstore), (fs_store_read _ _ _ _ Hstore), Hparse.
  simpl. f_equal. apply assign_all_same. simpl. intros p Hp. right.
  destruct (config_document_member _ _ Hnd Hp) as [Hc Hm].
  unfold stored_value. rewrite Hc, Hm. split; [done|].
  by rewrite Hvs, (find_param_elem _ _ Hnd Hp).
Qed.

Lemma setConfigValue_registry k v st :
  k ∈ key <$> configParams st →
  ∃ ps, assign_first k v (configParams st) = Some ps ∧
    configParams (setConfigValue k v st) = ps ∧
    configValues (setConfigValue k v st) = <[k:=v]> (configValues st) ∧
    fileSystem (setConfigValue k v st) =
      match fs_store (fileSystem st) CONFIG_FILE (serializeJson (config_document ps)) with
      | Some fs => fs
      | None => fileSystem st
      end.
Proof.
  intros [q Hq]%find_param_is_Some. unfold setConfigValue.
  destruct (assign_first k v (configParams st)) as [ps|] eqn:E.
  - exists ps. split; [done|]. unfold saveConfig. simpl.
    by destruct (fs_store _ _ _).
  - apply assign_first_None in E. congruence.
Qed.

(** X12.  A value set survives a restart.  For a JSON library that keeps
    [ArduinoJsonLaws] and a file system that keeps [FlashFSLaws]: when the
    file system takes the write and the written text parses back to the
    document, any registry over that file system that has the key loads
    the value with [readConfig]. *)
Theorem setConfigValue_survives_restart {json_ok : ArduinoJsonLaws}
    {flash_ok : FlashFSLaws} k v st st' :
  reachable st →
  k ∈ key <$> configParams st →
  is_Some (fs_store (fileSystem st) CONFIG_FILE
             (serializeJson (config_document (configParams (setConfigValue k v st))))) →
  deserializeJson 2048
    (serializeJson (config_document (configParams (setConfigValue k v st))))
  = Some (config_document (configParams (setConfigValue k v st))) →
  fileSystem st' = fileSystem (setConfigValue k v st) →
  k ∈ key <$> configParams st' →
  (readConfig st').1 = true ∧ getConfigValue k (readConfig st').2 = v.
Proof.
  intros Hreach Hk [fs Hstore] Hparse Hfs Hk'.
  pose proof (reachable_in_sync _ (reach_setConfigValue k v st Hreach)) as [Hnd Hvs].
  destruct (setConfigValue_registry k v st Hk) as (ps & _ & Hps & Hmap & Hfile).
  rewrite Hps in *. rewrite Hstore in Hfile. rewrite Hfile in Hfs.
  specialize (Hvs k). rewrite Hmap, lookup_insert_eq in Hvs.
  destruct (find_param k ps) as [p|] eqn:Hfind; [|done].
  injection Hvs as Hv. apply find_param_Some in Hfind as [<- Hp].
  destruct (readConfig_saved ps st' Hnd) as (loaded & -> & _ & _ & Hval & _);
    rewrite ?Hfs; eauto using fs_store_exists, fs_store_read.
  simpl. split; [done|]. rewrite Hv. by apply Hval.
Qed.

End Persistence.
End RegistryProperties.

(** ** Properties of the MQTT manager *)

Module ManagerProperties.
Import MqttManager.

(** *** The message buffer *)

Lemma take_take a b s : take a (take b s) = take (a `min` b) s.
Proof.
  revert b s. induction a as [|a IH]; intros [|b] [|c s]; simpl; try done.
  by rewrite IH.
Qed.

Lemma take_c_str n s : take n (c_str s) = c_str (take n s).
Proof.
  revert s. induction n as [|n IH]; intros [|c s]; simpl; try done.
  destruct (Ascii.eqb c NUL); [done|]. simpl. by rewrite IH.
Qed.

Lemma length_take n s : String.length (take n s) ≤ n.
Proof.
  revert s. induction n as [|n IH]; intros [|c s]; simpl; try lia.
  specialize (IH s). lia.
Qed.

Lemma append_assoc (a b c : string) : (a +:+ b) +:+ c = a +:+ b +:+ c.
Proof.
  induction a as [|x a IH]; [done|].
  change (String x ((a +:+ b) +:+ c) = String x (a +:+ b +:+ c)). by rewrite IH.
Qed.

Lemma take_starts n s : ∃ rest, s = take n s +:+ rest.
Proof.
  revert s. induction n as [|n IH]; intros [|c s]; simpl; eauto.
  destruct (IH s) as [rest Hrest]. exists rest.
  change (String c s = String c (take n s +:+ rest)). by rewrite <- Hrest.
Qed.

Lemma c_str_starts s : ∃ rest, s = c_str s +:+ rest.
Proof.
  induction s as [|c s [rest Hrest]]; simpl; [by exists EmptyString|].
  destruct (Ascii.eqb c NUL); [by eexists|].
  exists rest. change (String c s = String c (c_str s +:+ rest)). by rewrite <- Hrest.
Qed.

Lemma int_of_unsigned_small u : (0 ≤ u < 2 ^ 31)%Z → int_of_unsigned u = u.
Proof.
  intros Hu. unfold int_of_unsigned. rewrite Z.mod_small by lia.
  destruct (Z.ltb_spec u (2 ^ 31)); lia.
Qed.

Lemma int_of_unsigned_large u : (2 ^ 31 ≤ u < 2 ^ 32)%Z → (int_of_unsigned u < 0)%Z.
Proof.
  intros Hu. unfold int_of_unsigned. rewrite Z.mod_small by lia.
  destruct (Z.ltb_spec u (2 ^ 31)); lia.
Qed.

(** The buffer holds the C string of at most the first 255 bytes. *)
Lemma message_buffer_eq payload length :
  message_buffer payload length =
    c_str (take (if (int_of_unsigned length <? 0)%Z then 255
                 else 255 `min` Z.to_nat (int_of_unsigned length)) payload).
Proof.
  unfold message_buffer, snprintf_s. change (256 - 1) with 255.
  destruct (int_of_unsigned length <? 0)%Z; rewrite take_c_str; [done|].
  by rewrite take_take.
Qed.

Lemma message_buffer_take payload length :
  message_buffer (take 255 payload) length = message_buffer payload length.
Proof.
  rewrite !message_buffer_eq, take_take. f_equal. f_equal.
  destruct (int_of_unsigned length <? 0)%Z; lia.
Qed.

Section Facts.
Context {json_lib : ArduinoJson} {flash_fs : FlashFS}
  {pubsub_client : PubSubClient} {platform : Platform}.

Implicit Types (m : MQTTManager) (t : MQTTTopic) (ts : list MQTTTopic)
  (w : World) (doc : JsonDocument).

(** *** Inbound dispatch *)

Lemma dispatch_find m ts doc topic message :
  dispatch m ts doc topic message =
    match List.find (λ t, String.eqb topic (buildTopic m (name t))) ts with
    | Some t => invoke t doc topic message
    | None => []
    end.
Proof.
  induction ts as [|t ts IH]; [done|]. simpl.
  by destruct (String.eqb topic (buildTopic m (name t))).
Qed.

Lemma length_invoke t doc topic message :
  List.length (invoke t doc topic message) ≤ 1.
Proof.
  unfold invoke.
  destruct (containsKey doc "command"), (onCommand t), (onMessage t); simpl; lia.
Qed.

Lemma invoke_message t doc topic message h tp msg :
  MessageInvoked h tp msg ∈ invoke t doc topic message → tp = topic ∧ msg = message.
Proof.
  unfold invoke.
  destruct (containsKey doc "command"), (onCommand t), (onMessage t);
    intros Hin; repeat (apply elem_of_cons in Hin as [Hin|Hin]);
    try (by apply elem_of_nil in Hin); by simplify_eq.
Qed.

(** C3.  When the buffer parses and [t] is the binding the topic matches
    (the first whose full name equals it): with a [command] member in the
    document and a command handler in [t], that handler alone is called,
    with the member's value and the document; otherwise the message handler
    of [t] is called if there is one, with the topic and the buffer; and no
    handler is called otherwise. *)
Theorem onMqttMessage_dispatch m topic payload length doc t :
  deserializeJson 512 (message_buffer payload length) = Some doc →
  matching_topic m topic = Some t →
  (∀ h, containsKey doc "command" = true → onCommand t = Some h →
     onMqttMessage m topic payload length =
       [CommandInvoked h (memberAsString doc "command") doc]) ∧
  (∀ h, containsKey doc "command" = false ∨ onCommand t = None →
     onMessage t = Some h →
     onMqttMessage m topic payload length =
       [MessageInvoked h topic (message_buffer payload length)]) ∧
  (containsKey doc "command" = false ∨ onCommand t = None →
     onMessage t = None →
     onMqttMessage m topic payload length = []).
Proof.
  intros Hdoc Ht. unfold onMqttMessage, matching_topic in *.
  rewrite Hdoc, dispatch_find, Ht. unfold invoke. repeat split.
  - by intros h -> ->.
  - intros h [-> | ->] ->; [done|]. by destruct (containsKey doc "command").
  - intros [-> | ->] ->; [done|]. by destruct (containsKey doc "command").
Qed.

(** C5.  When the buffer does not parse, [onMqttMessage] calls no handler.
    (It has no error callback to call, and it changes nothing: it is a
    function of the manager.) *)
Theorem onMqttMessage_parse_failure m topic payload length :
  deserializeJson 512 (message_buffer payload length) = None →
  onMqttMessage m topic payload length = [].
Proof. intros Hdoc. unfold onMqttMessage. by rewrite Hdoc. Qed.


(** C10.  [onMqttMessage] makes at most one handler call, and it is decided
    by the first binding whose full name equals the topic: the bindings
    after it, same name or not, play no part. *)
Theorem onMqttMessage_first_match m topic payload length :
  List.length (onMqttMessage m topic payload length) ≤ 1 ∧
  ∀ before t after,
    topics m = before ++ t :: after →
    Forall (λ b, buildTopic m (name b) ≠ topic) before →
    buildTopic m (name t) = topic →
    onMqttMessage m topic payload length =
      match deserializeJson 512 (message_buffer payload length) with
      | Some doc => invoke t doc topic (message_buffer payload length)
      | None => []
      end.
Proof.
  unfold onMqttMessage. split.
  - destruct (deserializeJson 512 _) as [doc|]; [|simpl; lia].
    rewrite dispatch_find. destruct (List.find _ _); [apply length_invoke | simpl; lia].
  - intros before t after -> Hbefore Ht.
    destruct (deserializeJson 512 _) as [doc|]; [|done].
    induction Hbefore as [|b before Hb _ IH]; simpl.
    + by rewrite <- Ht, String.eqb_refl.
    + by rewrite (proj2 (String.eqb_neq topic _)).
Qed.

(** *** Topic registration *)

Lemma bindings_named_app n ts1 ts2 :
  bindings_named n (ts1 ++ ts2) = bindings_named n ts1 + bindings_named n ts2.
Proof. unfold bindings_named. by rewrite filter_app, length_app. Qed.

(** C1, as the code has it.  [registerTopic] checks nothing: every call
    adds a binding at the end of the list, so each call with a name gives
    that name one more binding, and after a run of calls a name has as many
    more bindings as the run has calls with it. *)
Theorem registerTopic_appends n cmd msg m :
  topics (registerTopic n cmd msg m) =
    topics m ++ [{| name := n; onCommand := cmd; onMessage := msg |}] ∧
  bindings_named n (topics (registerTopic n cmd msg m)) =
    S (bindings_named n (topics m)) ∧
  ∀ calls,
    bindings_named n (topics (register_all calls m)) =
      bindings_named n (topics m) + length (filter (λ call, call.1.1 = n) calls).
Proof.
  split; [done|]. split.
  - simpl. rewrite bindings_named_app. unfold bindings_named at 2.
    rewrite filter_cons_True by done. simpl. lia.
  - intros calls. revert m. induction calls as [|[[n' c'] h'] calls IH]; intros m.
    + simpl. lia.
    + change (register_all (_ :: calls) m) with
        (register_all calls (registerTopic n' c' h' m)).
      rewrite IH. simpl topics. rewrite bindings_named_app.
      unfold bindings_named at 2. rewrite (filter_cons (λ call, call.1.1 = n)).
      simpl. destruct (decide (n' = n)) as [->|Hne].
      * rewrite filter_cons_True by done. simpl. lia.
      * rewrite filter_cons_False by done. simpl. lia.
Qed.

(** *** Connection life cycle *)

Lemma buildTopic_inj m : Inj (=) (=) (buildTopic m).
Proof.
  intros n1 n2 Heq. unfold buildTopic in Heq.
  by repeat apply String.app_inj in Heq.
Qed.

Lemma subscriptions_count m ts n :
  List.length (filter (λ call, call = Subscribe (buildTopic m n)) (subscriptions m ts))
  = bindings_named n ts.
Proof.
  unfold subscriptions, bindings_named. induction ts as [|t ts IH]; [done|].
  rewrite fmap_cons, (filter_cons (λ t, name t = n)), filter_cons.
  destruct (decide (name t = n)) as [<-|Hne].
  - rewrite decide_True by done. simpl. by rewrite IH.
  - rewrite decide_False; [done|]. intros [= Heq]. by apply buildTopic_inj in Heq.
Qed.

Lemma subscribe_each_run ts m c calls reads :
  mqttClient m = Some c →
  subscribe_each ts {| manager := m; wire := calls; clockReads := reads |} =
    (tt, {| manager := with_mqttClient (Some (after_subscriptions m ts c)) m;
            wire := calls ++ subscriptions m ts; clockReads := reads |}).
Proof.
  revert m c calls. induction ts as [|t ts IH]; intros m c calls Hc.
  - simpl. rewrite app_nil_r. destruct m; simpl in *. by subst.
  - cbn [subscribe_each]. unfold mbind, Action_bind, read, tell. simpl. rewrite Hc.
    rewrite (IH _ (client_subscribe c (buildTopic m (name t))).2) by done.
    simpl. rewrite <- app_assoc. reflexivity.
Qed.

(** C4, as the code has it.  With a client to talk to: when the client
    accepts the connection, [connect] sets the connected flag, stores the
    clock reading in [lastUpdateTime], sends one [Subscribe] per binding,
    in order and with the full name (so a name has as many subscriptions as
    bindings: one when it is registered once), then publishes the online
    document if the client still reports the connection, and nothing if it
    does not, and returns true either way.  When the client refuses,
    [connect] clears the flag and returns false; nothing else of the
    manager changes and nothing more is sent. *)
Theorem connect_spec cfg w c :
  mqttClient (manager w) = Some c →
  (∀ c1,
     client_connect c (deviceId (manager w)) (credentials cfg) = (true, c1) →
     ∃ w', connect cfg w = (true, w') ∧
       isConnected (deviceStatus (manager w')) = true ∧
       lastUpdateTime (deviceStatus (manager w')) = millis (clockReads w) ∧
       topics (manager w') = topics (manager w) ∧
       wire w' =
         wire w ++
         Connect (deviceId (manager w)) (credentials cfg)
         :: subscriptions (manager w) (topics (manager w)) ++
            (if client_connected
                  (after_subscriptions (manager w) (topics (manager w)) c1)
             then
               [Publish
                  (buildTopic (manager w)
                     (baseTopicPrefix (manager w) +:+ "/" +:+
                      status_deviceId (deviceStatus (manager w)) +:+ "/online"))
                  (serializeJson
                     (online_document (status_deviceId (deviceStatus (manager w)))
                        (millis (S (clockReads w)))))]
             else []) ∧
       (∀ n, List.length
               (filter (λ call, call = Subscribe (buildTopic (manager w) n))
                  (subscriptions (manager w) (topics (manager w))))
             = bindings_named n (topics (manager w))) ∧
       (∀ n, bindings_named n (topics (manager w)) = 1 →
          List.length
            (filter (λ call, call = Subscribe (buildTopic (manager w) n))
               (subscriptions (manager w) (topics (manager w)))) = 1)) ∧
  (∀ c1,
     client_connect c (deviceId (manager w)) (credentials cfg) = (false, c1) →
     connect cfg w =
       (false,
        {| manager := with_deviceStatus
                        (with_isConnected false (deviceStatus (manager w)))
                        (with_mqttClient (Some c1) (manager w));
           wire := wire w ++ [Connect (deviceId (manager w)) (credentials cfg)];
           clockReads := clockReads w |}) ∧
     isConnected (deviceStatus (manager (connect cfg w).2)) = false ∧
     lastUpdateTime (deviceStatus (manager (connect cfg w).2))
     = lastUpdateTime (deviceStatus (manager w)) ∧
     topics (manager (connect cfg w).2) = topics (manager w) ∧
     wire (connect cfg w).2
     = wire w ++ [Connect (deviceId (manager w)) (credentials cfg)]).
Proof.
  destruct w as [m calls reads]. simpl. intros Hc. split.
  - intros c1 Hconn.
    destruct (client_connected (after_subscriptions m (topics m) c1)) eqn:Hup;
      eexists;
      unfold connect, mbind, Action_bind, read, tell, update, read_millis; simpl;
      rewrite Hc; simpl; rewrite Hc, Hconn; simpl;
      unfold subscribeToAllTopics, mbind, Action_bind, read; simpl;
      (erewrite subscribe_each_run by done); simpl;
      unfold publishOnlineStatus, publishJson, publish, is_connected, mbind,
        Action_bind, read, read_millis, tell, client_is_connected; simpl.
    + match goal with
      | |- context [client_connected ?x] =>
          replace (client_connected x) with true by (symmetry; exact Hup)
      end.
      simpl. split; [reflexivity|]. simpl. split; [done|]. split; [done|].
      split; [done|]. split; [rewrite <- !app_assoc; reflexivity|].
      split; intros n; [|intros <-]; apply subscriptions_count.
    + match goal with
      | |- context [client_connected ?x] =>
          replace (client_connected x) with false by (symmetry; exact Hup)
      end.
      simpl. split; [reflexivity|]. simpl. split; [done|]. split; [done|].
      split; [done|]. split; [rewrite app_nil_r, <- ?app_assoc; reflexivity|].
      split; intros n; [|intros <-]; apply subscriptions_count.
  - intros c1 Hconn.
    unfold connect, mbind, Action_bind, read, tell, update. simpl.
    rewrite Hc. simpl. by rewrite Hc, Hconn.
Qed.

(** C6.  With a client that reports no connection once told to disconnect:
    [disconnect], when the client reports a connection, publishes the
    offline payload once, tells the client to disconnect and clears the
    connected flag; when the client reports none it does nothing at all.
    So a second [disconnect] right after a first does nothing, and the two
    together publish the offline payload at most once. *)
Theorem disconnect_idempotent w :
  (∀ c, client_connected (client_disconnect c) = false) →
  (∀ c, mqttClient (manager w) = Some c → client_connected c = true →
     disconnect w =
       (tt,
        {| manager :=
             with_deviceStatus (with_isConnected false (deviceStatus (manager w)))
               (with_mqttClient
                  (Some (client_disconnect
                           (client_publish c
                              (baseTopicPrefix (manager w) +:+ "/" +:+
                               status_deviceId (deviceStatus (manager w)) +:+ "/offline")
                              OFFLINE_PAYLOAD).2))
                  (manager w));
           wire := wire w ++
                   [Publish
                      (baseTopicPrefix (manager w) +:+ "/" +:+
                       status_deviceId (deviceStatus (manager w)) +:+ "/offline")
                      OFFLINE_PAYLOAD;
                    Disconnect];
           clockReads := S (clockReads w) |}) ∧
     isConnected (deviceStatus (manager (disconnect w).2)) = false ∧
     topics (manager (disconnect w).2) = topics (manager w) ∧
     lastUpdateTime (deviceStatus (manager (disconnect w).2))
     = lastUpdateTime (deviceStatus (manager w))) ∧
  (client_is_connected (manager w) = false → disconnect w = (tt, w)) ∧
  disconnect (disconnect w).2 = (tt, (disconnect w).2) ∧
  (wire (disconnect (disconnect w).2).2 = wire w ∨
   wire (disconnect (disconnect w).2).2 =
     wire w ++
     [Publish
        (baseTopicPrefix (manager w) +:+ "/" +:+
         status_deviceId (deviceStatus (manager w)) +:+ "/offline")
        OFFLINE_PAYLOAD;
      Disconnect]).
Proof.
  intros Hdown.
  assert (∀ c, mqttClient (manager w) = Some c → client_connected c = true →
            disconnect w =
              (tt,
               {| manager :=
                    with_deviceStatus (with_isConnected false (deviceStatus (manager w)))
                      (with_mqttClient
                         (Some (client_disconnect
                                  (client_publish c
                                     (baseTopicPrefix (manager w) +:+ "/" +:+
                                      status_deviceId (deviceStatus (manager w))
                                      +:+ "/offline")
                                     OFFLINE_PAYLOAD).2))
                         (manager w));
                  wire := wire w ++
                          [Publish
                             (baseTopicPrefix (manager w) +:+ "/" +:+
                              status_deviceId (deviceStatus (manager w)) +:+ "/offline")
                             OFFLINE_PAYLOAD;
                           Disconnect];
                  clockReads := S (clockReads w) |})) as Hon.
  { intros c Hc Hup. destruct w as [m calls reads]. simpl in *.
    unfold disconnect, is_connected, publishOfflineStatus, mbind, Action_bind, read,
      read_millis, tell, update, client_is_connected. simpl.
    rewrite Hc, Hup. simpl. rewrite Hc. simpl. rewrite <- app_assoc. reflexivity. }
  assert (client_is_connected (manager w) = false → disconnect w = (tt, w)) as Hoff.
  { intros Hno. unfold disconnect, is_connected, mbind, Action_bind, read. simpl.
    by rewrite Hno. }
  split; [|split; [exact Hoff|]].
  { intros c Hc Hup. split; [by apply Hon|]. by rewrite (Hon c Hc Hup). }
  assert (disconnect (disconnect w).2 = (tt, (disconnect w).2)) as Hidem.
  { destruct (client_is_connected (manager w)) eqn:Eup.
    - unfold client_is_connected in Eup.
      destruct (mqttClient (manager w)) as [c|] eqn:Ec; [|done].
      rewrite (Hon c eq_refl Eup). simpl.
      unfold disconnect, is_connected, mbind, Action_bind, read, client_is_connected.
      simpl. by rewrite Hdown.
    - rewrite (Hoff eq_refl). simpl. by rewrite (Hoff eq_refl). }
  split; [exact Hidem|]. rewrite Hidem. simpl.
  destruct (client_is_connected (manager w)) eqn:Eup.
  - unfold client_is_connected in Eup.
    destruct (mqttClient (manager w)) as [c|] eqn:Ec; [|done].
    rewrite (Hon c eq_refl Eup). by right.
  - rewrite (Hoff eq_refl). by left.
Qed.

End Facts.

(** *** Short payloads and embedded NUL bytes *)

Lemma take_all n s : String.length s ≤ n → take n s = s.
Proof.
  revert s. induction n as [|n IH]; intros [|c s]; simpl; try done; [lia|].
  intros Hlen. rewrite IH; [done | lia].
Qed.

Lemma take_app_length a b : take (String.length a) (a +:+ b) = a.
Proof.
  induction a as [|c a IH]; [by destruct b|].
  change (String c (take (String.length a) (a +:+ b)) = String c a). by rewrite IH.
Qed.

Lemma c_str_app_NUL a b : c_str a = a → c_str (a +:+ String NUL b) = a.
Proof.
  induction a as [|c a IH]; [done|].
  change (String c a +:+ String NUL b) with (String c (a +:+ String NUL b)). simpl.
  destruct (Ascii.eqb c NUL); [done|]. intros [= Ha]. by rewrite IH.
Qed.

Lemma c_str_take n s : c_str s = s → c_str (take n s) = take n s.
Proof. intros Hs. by rewrite <- take_c_str, Hs. Qed.

(** X13.  A payload of at most 255 bytes with no NUL byte in it, given
    with its length, is in the buffer whole.  So (the parser being taken
    not to write to the buffer) [onMqttMessage] parses the payload itself,
    dispatches on the document that gives, and any message handler it
    calls is passed the payload. *)
Theorem message_buffer_short {json_lib : ArduinoJson} {pubsub_client : PubSubClient}
    (m : MQTTManager) (topic payload : string) :
  String.length payload ≤ 255 →
  c_str payload = payload →
  message_buffer payload (Z.of_nat (String.length payload)) = payload ∧
  onMqttMessage m topic payload (Z.of_nat (String.length payload)) =
    match deserializeJson 512 payload with
    | Some doc => dispatch m (topics m) doc topic payload
    | None => []
    end ∧
  (∀ h tp msg,
     MessageInvoked h tp msg
       ∈ onMqttMessage m topic payload (Z.of_nat (String.length payload)) →
     tp = topic ∧ msg = payload).
Proof.
  intros Hlen Hnul.
  assert (message_buffer payload (Z.of_nat (String.length payload)) = payload) as Hbuf.
  { rewrite message_buffer_eq.
    rewrite int_of_unsigned_small by lia.
    destruct (Z.ltb_spec (Z.of_nat (String.length payload)) 0); [lia|].
    rewrite Nat2Z.id, take_all by lia. done. }
  split; [exact Hbuf|]. unfold onMqttMessage. rewrite Hbuf. split; [done|].
  intros h tp msg. destruct (deserializeJson 512 payload) as [doc|];
    [|by intros ?%elem_of_nil].
  rewrite dispatch_find. destruct (List.find _ _); [|by intros ?%elem_of_nil].
  apply invoke_message.
Qed.


(** *** Topics and dispatch together *)

Section Topics.
Context {json_lib : ArduinoJson} {flash_fs : FlashFS}
  {pubsub_client : PubSubClient} {platform : Platform}.

Implicit Types (m : MQTTManager) (t : MQTTTopic) (ts : list MQTTTopic)
  (doc : JsonDocument).

Lemma erase_topic_absent n ts : bindings_named n ts = 0 → erase_topic n ts = ts.
Proof.
  unfold bindings_named. induction ts as [|t ts IH]; [done|]. simpl.
  rewrite filter_cons. destruct (decide (name t = n)) as [Heq|Hne]; [done|].
  intros Hz. by rewrite (proj2 (String.eqb_neq _ _) Hne), IH.
Qed.

Lemma bindings_named_erase n n' ts :
  bindings_named n' (erase_topic n ts) =
    if decide (n' = n) then pred (bindings_named n ts) else bindings_named n' ts.
Proof.
  unfold bindings_named. induction ts as [|t ts IH]; [by case_decide|]. simpl.
  destruct (String.eqb_spec (name t) n) as [Heq|Hne].
  - rewrite !filter_cons.
    destruct (decide (n' = n)) as [->|Hn].
    + by rewrite decide_True.
    + by rewrite decide_False by congruence.
  - rewrite !(filter_cons _ t).
    destruct (decide (n' = n)) as [->|Hn].
    + by rewrite !decide_False by done.
    + destruct (decide (name t = n')); simpl; by rewrite IH.
Qed.

Lemma find_app_None {A} (f : A → bool) (l k : list A) :
  List.find f l = None → List.find f (l ++ k) = List.find f k.
Proof.
  induction l as [|x l IH]; [done|]. simpl. destruct (f x); [done | exact IH].
Qed.

Lemma find_no_binding m n ts :
  bindings_named n ts = 0 →
  List.find (λ t, String.eqb (buildTopic m n) (buildTopic m (name t))) ts = None.
Proof.
  unfold bindings_named. induction ts as [|t ts IH]; [done|]. simpl.
  rewrite filter_cons. destruct (decide (name t = n)) as [Heq|Hne]; [done|].
  intros Hz. rewrite (proj2 (String.eqb_neq _ _)); [by apply IH|].
  intros Heq%buildTopic_inj. done.
Qed.

(** X15.  [unregisterTopic] removes one binding of the name, the first,
    and no binding of another name; when the name has no binding nothing
    changes. *)
Theorem unregisterTopic_spec n m :
  (∀ n', bindings_named n' (topics (unregisterTopic n m)) =
           if decide (n' = n) then pred (bindings_named n (topics m))
           else bindings_named n' (topics m)) ∧
  (∀ before t after,
     topics m = before ++ t :: after → name t = n →
     bindings_named n before = 0 →
     topics (unregisterTopic n m) = before ++ after) ∧
  (bindings_named n (topics m) = 0 → topics (unregisterTopic n m) = topics m).
Proof.
  split; [|split].
  - intros n'. apply bindings_named_erase.
  - intros before t after Hts Ht Hbefore. simpl. rewrite Hts. clear Hts.
    induction before as [|b before IH]; simpl.
    + by rewrite (proj2 (String.eqb_eq _ _) Ht).
    + unfold bindings_named in Hbefore. rewrite filter_cons in Hbefore.
      destruct (decide (name b = n)) as [Heq|Hne]; [done|].
      rewrite (proj2 (String.eqb_neq _ _) Hne). f_equal. by apply IH.
  - apply erase_topic_absent.
Qed.

(** X16.  Registering a name that has no binding and unregistering it
    gives the topic list back; when the name had a binding already, it is
    the older binding that goes and the new one that stays. *)
Theorem registerTopic_unregisterTopic n cmd msg m :
  (bindings_named n (topics m) = 0 →
     topics (unregisterTopic n (registerTopic n cmd msg m)) = topics m) ∧
  (0 < bindings_named n (topics m) →
     topics (unregisterTopic n (registerTopic n cmd msg m)) =
       erase_topic n (topics m) ++ [{| name := n; onCommand := cmd; onMessage := msg |}]).
Proof.
  simpl. generalize (topics m). intros ts. unfold bindings_named. split.
  - induction ts as [|t ts IH]; simpl.
    + by rewrite String.eqb_refl.
    + rewrite filter_cons. destruct (decide (name t = n)) as [Heq|Hne]; [done|].
      intros Hz. rewrite (proj2 (String.eqb_neq _ _) Hne). f_equal. by apply IH.
  - induction ts as [|t ts IH]; simpl; [lia|].
    rewrite filter_cons. destruct (String.eqb_spec (name t) n) as [Heq|Hne]; [done|].
    rewrite decide_False by done. intros Hpos.
    rewrite <- app_comm_cons. f_equal. by apply IH.
Qed.

Lemma onMqttMessage_no_binding m n payload length :
  bindings_named n (topics m) = 0 →
  onMqttMessage m (buildTopic m n) payload length = [].
Proof.
  intros Hn. unfold onMqttMessage. destruct (deserializeJson 512 _); [|done].
  by rewrite dispatch_find, find_no_binding.
Qed.

(** X17.  A message on the full name of a name that has no binding calls
    no handler, whatever the payload; a manager just built calls none at
    all. *)
Theorem onMqttMessage_unregistered m n payload length :
  (bindings_named n (topics m) = 0 →
     onMqttMessage m (buildTopic m n) payload length = []) ∧
  (topics m = [] → ∀ topic, onMqttMessage m topic payload length = []).
Proof.
  split; [apply onMqttMessage_no_binding|].
  intros Hnone topic. unfold onMqttMessage. rewrite Hnone.
  by destruct (deserializeJson 512 _).
Qed.

(** X18.  A handler registered for a name that had no binding gets the
    commands sent to the name's full topic: when the buffer parses to a
    document with a [command] member, [onMqttMessage] calls it with the
    member's value and the document, and calls nothing else. *)
Theorem registerTopic_then_command m n h msg payload length doc :
  bindings_named n (topics m) = 0 →
  deserializeJson 512 (message_buffer payload length) = Some doc →
  containsKey doc "command" = true →
  onMqttMessage (registerTopic n (Some h) msg m) (buildTopic m n) payload length =
    [CommandInvoked h (memberAsString doc "command") doc].
Proof.
  intros Hn Hdoc Hcmd. unfold onMqttMessage. rewrite Hdoc, dispatch_find. simpl.
  rewrite find_app_None by (by apply (find_no_binding m n)). simpl.
  change (buildTopic (registerTopic n (Some h) msg m) n) with (buildTopic m n).
  rewrite String.eqb_refl. unfold invoke. simpl. by rewrite Hcmd.
Qed.

(** X19.  After [unregisterTopic] of a name that had one binding, a
    message on the name's full topic calls no handler. *)
Theorem unregisterTopic_then_message m n payload length :
  bindings_named n (topics m) ≤ 1 →
  onMqttMessage (unregisterTopic n m) (buildTopic m n) payload length = [].
Proof.
  intros Hone.
  change (buildTopic m n) with (buildTopic (unregisterTopic n m) n).
  apply onMqttMessage_no_binding. simpl.
  rewrite bindings_named_erase, decide_True by done. lia.
Qed.

End Topics.

(** *** Status reports and the maintenance loop *)

Section Upkeep.
Context {json_lib : ArduinoJson} {flash_fs : FlashFS}
  {pubsub_client : PubSubClient} {platform : Platform}
  {inbound : PubSubInbound} {radio : WiFiRadio}.

Implicit Types (m : MQTTManager) (w : World) (c : Client).

Lemma publish_disconnected topic message w :
  client_is_connected (manager w) = false → publish topic message w = (false, w).
Proof.
  intros Hno. unfold publish, is_connected, mbind, Action_bind, read. simpl.
  by rewrite Hno.
Qed.

Lemma publish_connected topic message w c :
  mqttClient (manager w) = Some c → client_connected c = true →
  publish topic message w =
    ((client_publish c (buildTopic (manager w) topic) message).1,
     {| manager := with_mqttClient
                     (Some (client_publish c (buildTopic (manager w) topic) message).2)
                     (manager w);
        wire := wire w ++ [Publish (buildTopic (manager w) topic) message];
        clockReads := clockReads w |}).
Proof.
  intros Hc Hup.
  unfold publish, is_connected, mbind, Action_bind, read, tell, client_is_connected.
  simpl. rewrite Hc, Hup. simpl. by rewrite Hc.
Qed.

Lemma publishStatus_disconnected w :
  client_is_connected (manager w) = false → publishStatus w = (false, w).
Proof.
  intros Hno. unfold publishStatus, is_connected, mbind, Action_bind, read. simpl.
  by rewrite Hno.
Qed.

Lemma publishStatus_connected w c :
  mqttClient (manager w) = Some c → client_connected c = true →
  publishStatus w =
    publish
      (baseTopicPrefix (manager w) +:+ "/" +:+
       status_deviceId (deviceStatus (manager w)) +:+ "/status")
      (serializeJson (status_document (deviceStatus (manager w)) (millis (clockReads w))))
      {| manager := manager w; wire := wire w; clockReads := S (clockReads w) |}.
Proof.
  intros Hc Hup.
  unfold publishStatus, publishJson, is_connected, mbind, Action_bind, read,
    read_millis, client_is_connected. simpl. by rewrite Hc, Hup.
Qed.

Lemma publishCommandResponse_disconnected command success message w :
  client_is_connected (manager w) = false →
  publishCommandResponse command success message w = (false, w).
Proof.
  intros Hno.
  unfold publishCommandResponse, is_connected, mbind, Action_bind, read. simpl.
  by rewrite Hno.
Qed.

(** X20.  [publishStatus] sends nothing and does not read the clock when
    the client reports no connection.  When it reports one, the status
    document is published once, under the prefix and device id twice over
    (the topic it builds goes through [publish], which prefixes it again);
    the result is the client's, and the device status is not refreshed. *)
Theorem publishStatus_spec w :
  (client_is_connected (manager w) = false → publishStatus w = (false, w)) ∧
  (∀ c, mqttClient (manager w) = Some c → client_connected c = true →
     ∃ w',
       publishStatus w =
         ((client_publish c
             (baseTopicPrefix (manager w) +:+ "/" +:+
              status_deviceId (deviceStatus (manager w)) +:+ "/" +:+
              baseTopicPrefix (manager w) +:+ "/" +:+
              status_deviceId (deviceStatus (manager w)) +:+ "/status")
             (serializeJson
                (status_document (deviceStatus (manager w)) (millis (clockReads w))))).1,
          w') ∧
       wire w' =
         wire w ++
         [Publish
            (baseTopicPrefix (manager w) +:+ "/" +:+
             status_deviceId (deviceStatus (manager w)) +:+ "/" +:+
             baseTopicPrefix (manager w) +:+ "/" +:+
             status_deviceId (deviceStatus (manager w)) +:+ "/status")
            (serializeJson
               (status_document (deviceStatus (manager w)) (millis (clockReads w))))] ∧
       deviceStatus (manager w') = deviceStatus (manager w) ∧
       topics (manager w') = topics (manager w) ∧
       clockReads w' = S (clockReads w)).
Proof.
  split; [apply publishStatus_disconnected|].
  intros c Hc Hup. rewrite (publishStatus_connected w c) by done.
  erewrite publish_connected by (simpl; eauto). simpl. eexists. by split.
Qed.

(** X21.  [publishCommandResponse] returns false and sends nothing when
    the client reports no connection; otherwise the response document is
    published once, under the prefix and device id twice over, and the
    result is the client's. *)
Theorem publishCommandResponse_spec command success message w :
  (client_is_connected (manager w) = false →
     publishCommandResponse command success message w = (false, w)) ∧
  (∀ c, mqttClient (manager w) = Some c → client_connected c = true →
     ∃ w',
       publishCommandResponse command success message w =
         ((client_publish c
             (baseTopicPrefix (manager w) +:+ "/" +:+
              status_deviceId (deviceStatus (manager w)) +:+ "/" +:+
              baseTopicPrefix (manager w) +:+ "/" +:+
              status_deviceId (deviceStatus (manager w)) +:+ "/response")
             (serializeJson
                (response_document command success message (millis (clockReads w))))).1,
          w') ∧
       wire w' =
         wire w ++
         [Publish
            (baseTopicPrefix (manager w) +:+ "/" +:+
             status_deviceId (deviceStatus (manager w)) +:+ "/" +:+
             baseTopicPrefix (manager w) +:+ "/" +:+
             status_deviceId (deviceStatus (manager w)) +:+ "/response")
            (serializeJson
               (response_document command success message (millis (clockReads w))))]).
Proof.
  split; [apply publishCommandResponse_disconnected|].
  - intros c Hc Hup. destruct w as [m calls reads]. simpl in *.
    unfold publishCommandResponse, publishJson, is_connected, mbind, Action_bind, read,
      read_millis, client_is_connected. simpl. rewrite Hc, Hup. simpl.
    erewrite publish_connected by (simpl; eauto). simpl. eexists. by split.
Qed.

(** X22.  A manager built without a client never touches one: [connect],
    [publish], [publishStatus] and [publishCommandResponse] return false,
    [disconnect] and [loop] return, and none of them changes anything. *)
Theorem null_client_is_safe cfg topic message command success w :
  mqttClient (manager w) = None →
  connect cfg w = (false, w) ∧
  disconnect w = (tt, w) ∧
  publish topic message w = (false, w) ∧
  publishStatus w = (false, w) ∧
  publishCommandResponse command success message w = (false, w) ∧
  loop cfg w = ([], w).
Proof.
  intros Hc.
  assert (client_is_connected (manager w) = false) as Hno
    by (unfold client_is_connected; by rewrite Hc).
  repeat split.
  - unfold connect, mbind, Action_bind, read. simpl. by rewrite Hc.
  - unfold disconnect, is_connected, mbind, Action_bind, read. simpl. by rewrite Hno.
  - by apply publish_disconnected.
  - by apply publishStatus_disconnected.
  - by apply publishCommandResponse_disconnected.
  - unfold loop, mbind, Action_bind, read. simpl. by rewrite Hc.
Qed.

(** X23.  While the client reports no connection, [loop] is a connection
    attempt and nothing else: it leaves what [connect] leaves, and no
    handler is called. *)
Theorem loop_reconnects cfg w c :
  mqttClient (manager w) = Some c →
  client_connected c = false →
  loop cfg w = ([], (connect cfg w).2).
Proof.
  intros Hc Hno. unfold loop at 1. unfold mbind, Action_bind, read. simpl.
  rewrite Hc, Hno. simpl. by destruct (connect cfg w).
Qed.

Lemma onMqttMessage_with_mqttClient client m topic payload length :
  onMqttMessage (with_mqttClient client m) topic payload length
  = onMqttMessage m topic payload length.
Proof.
  unfold onMqttMessage. destruct (deserializeJson 512 _); [|done].
  by rewrite !dispatch_find.
Qed.

(** The world [poll] leaves. *)
Lemma poll_run w c :
  mqttClient (manager w) = Some c →
  poll w =
    ((client_loop c).1,
     {| manager := with_mqttClient (Some (client_loop c).2) (manager w);
        wire := wire w; clockReads := clockReads w |}).
Proof. intros Hc. unfold poll. by rewrite Hc. Qed.



(** X26.  The report test survives the rollover of [millis()]: for 32-bit
    values it holds exactly when the time elapsed since the last report,
    counted across a wrap of the clock, has reached the interval. *)
Theorem status_due_rollover now last interval :
  (0 ≤ now < 2 ^ 32)%Z → (0 ≤ last < 2 ^ 32)%Z → (0 ≤ interval < 2 ^ 32)%Z →
  status_due now last interval = true ↔
  (interval ≤ if (last <=? now)%Z then now - last else now + 2 ^ 32 - last)%Z.
Proof.
  intros Hnow Hlast Hint. unfold status_due, uint32.
  rewrite (Z.mod_small interval) by done. rewrite Z.leb_le.
  destruct (Z.leb_spec last now).
  - by rewrite Z.mod_small by lia.
  - replace (now - last)%Z with (now + 2 ^ 32 - last + (-1) * 2 ^ 32)%Z by lia.
    rewrite Z.mod_add by lia. by rewrite Z.mod_small by lia.
Qed.

(** X27.  [updateStatus] takes the device id, chip type and connected flag
    from the status it is given and fills in uptime (whole seconds of the
    clock), signal strength, address and update time itself.  From then on
    topics are built with the id of that status, while the id the client
    connects with stays; nothing is sent. *)
Theorem updateStatus_spec status w :
  ∃ w', updateStatus status w = (tt, w') ∧
    deviceStatus (manager w') =
      {| status_deviceId := status_deviceId status; chipType := chipType status;
         isConnected := isConnected status;
         lastUpdateTime := millis (S (clockReads w));
         uptime := (uint32 (millis (clockReads w)) / 1000)%Z;
         signalStrength := getWiFiSignalStrength;
         ipAddress := getLocalIP |} ∧
    (∀ n, buildTopic (manager w') n =
            baseTopicPrefix (manager w) +:+ "/" +:+ status_deviceId status +:+ "/" +:+ n) ∧
    deviceId (manager w') = deviceId (manager w) ∧
    topics (manager w') = topics (manager w) ∧
    mqttClient (manager w') = mqttClient (manager w) ∧
    wire w' = wire w ∧
    clockReads w' = S (S (clockReads w)).
Proof. eexists. by repeat split. Qed.

End Upkeep.
End ManagerProperties.

(** ** The properties on concrete inputs *)

Module Scenarios.
Import WifiConfig MqttManager Reference RegistryProperties ManagerProperties.

(** *** The registry *)

Lemma getConfigValue_registered_witness :
  reachable configured ∧
  (∀ k, k ∉ key <$> configParams configured →
     getConfigValue k configured = EmptyString) ∧
  (∀ p, p ∈ configParams configured → getConfigValue (key p) configured = value p).
Proof.
  assert (reachable configured) as Hreach by (apply reach_registerParam, reach_init).
  split; [exact Hreach | exact (getConfigValue_registered configured Hreach)].
Defined.

Lemma setConfigValue_then_get_witness :
  (("mqtt_server" ∈ key <$> configParams configured) ∧
   getConfigValue "mqtt_server" (setConfigValue "mqtt_server" "10.0.0.5" configured)
   = "10.0.0.5") ∧
  (("mqtt_port" ∉ key <$> configParams configured) ∧
   setConfigValue "mqtt_port" "1883" configured = configured).
Proof.
  assert ("mqtt_server" ∈ key <$> configParams configured) as Hin
    by (apply (bool_decide_unpack _); vm_compute; exact I).
  assert ("mqtt_port" ∉ key <$> configParams configured) as Hout
    by (apply (bool_decide_unpack _); vm_compute; exact I).
  split; split; [exact Hin | | exact Hout |].
  - exact (proj1 (proj1 (setConfigValue_then_get "mqtt_server" "10.0.0.5" configured) Hin)).
  - exact (proj2 (setConfigValue_then_get "mqtt_port" "1883" configured) Hout).
Defined.

(** A value longer than [maxLength] is stored all the same: the PIN is
    declared with four characters and takes six. *)
Lemma setConfigValue_overlong_counterexample :
  (maxLength <$> find_param "pin" (configParams with_pin)) = Some 4%Z ∧
  String.length "123456" = 6 ∧
  getConfigValue "pin" with_pin = "0000" ∧
  getConfigValue "pin" (setConfigValue "pin" "123456" with_pin) = "123456" ∧
  (value <$> find_param "pin" (configParams (setConfigValue "pin" "123456" with_pin)))
  = Some "123456" ∧
  getConfigValue "pin" (setConfigValue "pin" "123456" with_pin)
  ≠ getConfigValue "pin" with_pin.
Proof. repeat split; try (vm_compute; reflexivity). vm_compute. discriminate. Qed.

Lemma readConfig_spec_witness :
  (fs_exists (fileSystem configured) CONFIG_FILE = false ∧
   readConfig configured = (false, configured)) ∧
  (fs_read (fileSystem (configured_on "{}" true)) CONFIG_FILE = None ∧
   readConfig (configured_on "{}" true) = (false, configured_on "{}" true)) ∧
  (deserializeJson 2048 "broker" = None ∧
   readConfig (configured_on "broker" false) = (false, configured_on "broker" false)) ∧
  (deserializeJson 2048 (object1 "mqtt_server" "10.0.0.5")
   = Some [("mqtt_server", JString "10.0.0.5")] ∧
   ∃ st', readConfig (configured_on (object1 "mqtt_server" "10.0.0.5") false)
          = (true, st') ∧
          configValues st' !! "mqtt_server" = Some "10.0.0.5" ∧
          ∃ p', configParams st' !! 0 = Some p' ∧ value p' = "10.0.0.5").
Proof.
  split; [|split; [|split]].
  - split; [reflexivity|].
    apply (proj1 (readConfig_spec configured)). reflexivity.
  - split; [reflexivity|].
    apply (proj1 (proj2 (readConfig_spec (configured_on "{}" true)))). reflexivity.
  - split; [reflexivity|].
    apply (proj1 (proj2 (proj2 (readConfig_spec (configured_on "broker" false))))
             "broker"); reflexivity.
  - split; [reflexivity|].
    destruct (proj2 (proj2 (proj2
                (readConfig_spec (json_lib := json)
                   (configured_on (object1 "mqtt_server" "10.0.0.5") false))))
                (object1 "mqtt_server" "10.0.0.5")
                ([("mqtt_server", JString "10.0.0.5")] : Doc)
                eq_refl eq_refl eq_refl)
      as (st' & Hread & _ & _ & _ & Hseq & Hin & _).
    exists st'. split; [exact Hread|]. split.
    + apply (Hin "mqtt_server"). apply (bool_decide_unpack _). vm_compute. exact I.
    + destruct (Hseq 0 {| key := "mqtt_server"; label := "MQTT Server";
                          defaultValue := "broker.local"; maxLength := 40;
                          value := "broker.local" |} eq_refl)
        as (p' & Hp' & _ & _ & _ & _ & Hvalue).
      exists p'. split; [exact Hp' | exact Hvalue].
Defined.

(** *** The manager *)

(** [cmd] registered a second time is bound a second time. *)
Lemma registerTopic_twice_counterexample :
  bindings_named "cmd" (topics (cmd_manager open_broker)) = 1 ∧
  topics (registerTopic "cmd" (Some 3) (Some 4) (cmd_manager open_broker))
  ≠ topics (cmd_manager open_broker) ∧
  bindings_named "cmd"
    (topics (registerTopic "cmd" (Some 3) (Some 4) (cmd_manager open_broker))) = 2.
Proof. repeat split; try (vm_compute; reflexivity). vm_compute. discriminate. Qed.

Lemma onMqttMessage_dispatch_witness :
  onMqttMessage (cmd_manager open_broker) "home/device1/cmd"
    (object1 "command" "reboot") 20
  = [CommandInvoked 1 "reboot" [("command", JString "reboot")]] ∧
  onMqttMessage (cmd_manager open_broker) "home/device1/cmd" (object1 "level" "7") 13
  = [MessageInvoked 2 "home/device1/cmd" (object1 "level" "7")] ∧
  onMqttMessage mute_manager "home/device1/cmd" (object1 "command" "reboot") 20 = [].
Proof.
  split; [|split].
  - exact (proj1 (onMqttMessage_dispatch (json_lib := json) (cmd_manager open_broker)
                    "home/device1/cmd" (object1 "command" "reboot") 20
                    ([("command", JString "reboot")] : Doc)
                    {| name := "cmd"; onCommand := Some 1; onMessage := Some 2 |}
                    eq_refl eq_refl) 1 eq_refl eq_refl).
  - exact (proj1 (proj2 (onMqttMessage_dispatch (json_lib := json)
                           (cmd_manager open_broker)
                           "home/device1/cmd" (object1 "level" "7") 13
                           ([("level", JString "7")] : Doc)
                           {| name := "cmd"; onCommand := Some 1; onMessage := Some 2 |}
                           eq_refl eq_refl)) 2 (or_introl eq_refl) eq_refl).
  - exact (proj2 (proj2 (onMqttMessage_dispatch (json_lib := json) mute_manager
                           "home/device1/cmd" (object1 "command" "reboot") 20
                           ([("command", JString "reboot")] : Doc)
                           {| name := "cmd"; onCommand := None; onMessage := None |}
                           eq_refl eq_refl)) (or_intror eq_refl) eq_refl).
Defined.

Lemma onMqttMessage_parse_failure_witness :
  deserializeJson 512 (message_buffer "reboot" 6) = None ∧
  onMqttMessage (cmd_manager open_broker) "home/device1/cmd" "reboot" 6 = [].
Proof.
  split; [reflexivity|].
  exact (onMqttMessage_parse_failure (json_lib := json) (cmd_manager open_broker)
           "home/device1/cmd" "reboot" 6 eq_refl).
Defined.


Lemma onMqttMessage_first_match_witness :
  onMqttMessage twice_manager "home/device1/cmd" (object1 "command" "reboot") 20
  = [CommandInvoked 1 "reboot" [("command", JString "reboot")]].
Proof.
  refine (proj2 (onMqttMessage_first_match (json_lib := json) twice_manager
                   "home/device1/cmd" (object1 "command" "reboot") 20)
            [] {| name := "cmd"; onCommand := Some 1; onMessage := Some 2 |}
            [{| name := "cmd"; onCommand := Some 3; onMessage := Some 4 |}]
            eq_refl _ eq_refl).
  apply Forall_nil_2.
Defined.

Lemma connect_spec_witness :
  (∃ w', connect configured (fresh (cmd_manager open_broker)) = (true, w') ∧
     isConnected (deviceStatus (manager w')) = true ∧
     wire w' =
       [Connect "device1" None; Subscribe "home/device1/cmd";
        Publish "home/device1/home/device1/online"
          (serializeJson (online_document "device1" 1000))]) ∧
  (∃ w', connect (pubsub_client := fading) configured
           {| manager := fading_manager; wire := []; clockReads := 0 |} = (true, w') ∧
     isConnected (deviceStatus (manager w')) = true ∧
     wire w' = [Connect "device1" None; Subscribe "home/device1/cmd"]) ∧
  (isConnected (deviceStatus (manager refused_world)) = true ∧
   wire (connect configured refused_world).2 = [Connect "device1" None] ∧
   (connect configured refused_world).1 = false ∧
   isConnected (deviceStatus (manager (connect configured refused_world).2)) = false).
Proof.
  split; [|split].
  - destruct (proj1 (connect_spec (platform := board) (json_lib := json) configured
                       (fresh (cmd_manager open_broker)) open_broker eq_refl)
                {| accepting := true; up := true; subscribed := []; delivered := [] |}
                eq_refl)
      as (w' & Hrun & Hflag & _ & _ & Hwire & _).
    exists w'. split; [exact Hrun|]. split; [exact Hflag | exact Hwire].
  - destruct (proj1 (connect_spec (pubsub_client := fading) (platform := board)
                       (json_lib := json) configured
                       {| manager := fading_manager; wire := []; clockReads := 0 |}
                       open_broker eq_refl)
                open_broker eq_refl)
      as (w' & Hrun & Hflag & _ & _ & Hwire & _).
    exists w'. split; [exact Hrun|]. split; [exact Hflag | exact Hwire].
  - split; [reflexivity|].
    destruct (proj2 (connect_spec (platform := board) (json_lib := json) configured
                       refused_world closed_broker eq_refl)
                closed_broker eq_refl)
      as (Hrun & Hflag & _ & _ & Hwire).
    split; [exact Hwire|]. split; [|exact Hflag].
    exact (f_equal fst Hrun).
Defined.

(** The claim as worded fails twice.  A name bound twice is subscribed
    twice; and a client that accepts the connection and then reports none
    gets no online document, though [connect] returns true. *)
Lemma connect_counterexample :
  (bindings_named "cmd" (topics twice_manager) = 2 ∧
   (connect configured (fresh twice_manager)).1 = true ∧
   wire (connect configured (fresh twice_manager)).2
   = [Connect "device1" None; Subscribe "home/device1/cmd";
      Subscribe "home/device1/cmd";
      Publish "home/device1/home/device1/online"
        (serializeJson (online_document "device1" 1000))] ∧
   List.length
     (filter (λ call, call = Subscribe "home/device1/cmd")
        (wire (connect configured (fresh twice_manager)).2)) ≠ 1) ∧
  ((connect (pubsub_client := fading) configured
      {| manager := fading_manager; wire := []; clockReads := 0 |}).1 = true ∧
   wire (connect (pubsub_client := fading) configured
           {| manager := fading_manager; wire := []; clockReads := 0 |}).2
   = [Connect "device1" None; Subscribe "home/device1/cmd"] ∧
   ∀ topic payload,
     Publish topic payload ∉
       wire (connect (pubsub_client := fading) configured
               {| manager := fading_manager; wire := []; clockReads := 0 |}).2).
Proof.
  split; [split; [|split; [|split]] | split; [|split]]; try reflexivity.
  - vm_compute. discriminate.
  - intros topic payload Hin.
    change (Publish topic payload ∈
              [Connect "device1" None; Subscribe "home/device1/cmd"]) in Hin.
    repeat (apply elem_of_cons in Hin as [Hin|Hin]; [discriminate|]).
    by apply elem_of_nil in Hin.
Qed.

Lemma disconnect_idempotent_witness :
  (∀ c : Broker, client_connected (client_disconnect c) = false) ∧
  isConnected (deviceStatus (manager online_world)) = true ∧
  isConnected (deviceStatus (manager (disconnect online_world).2)) = false ∧
  wire (disconnect (fresh (cmd_manager live_broker))).2
  = [Publish "home/device1/offline" OFFLINE_PAYLOAD; Disconnect] ∧
  disconnect (disconnect online_world).2 = (tt, (disconnect online_world).2).
Proof.
  assert (∀ c : Broker, client_connected (client_disconnect c) = false) as Hdown
    by reflexivity.
  split; [exact Hdown|]. split; [reflexivity|]. split; [|split; [reflexivity|]].
  - refine (proj1 (proj2 (proj1 (disconnect_idempotent online_world Hdown)
                            _ eq_refl eq_refl))).
  - exact (proj1 (proj2 (proj2 (disconnect_idempotent online_world Hdown)))).
Defined.

(** *** The reference collaborators keep the laws *)

Lemma doc_get_doc_set d k v k' :
  doc_get (doc_set d k v) k' = if decide (k = k') then Some v else doc_get d k'.
Proof.
  unfold doc_get. induction d as [|[k0 v0] d IH]; simpl.
  - destruct (String.eqb_spec k k'); by case_decide.
  - destruct (String.eqb_spec k0 k) as [->|Hne]; simpl.
    + destruct (String.eqb_spec k k'); by case_decide.
    + destruct (String.eqb_spec k0 k') as [->|Hne'].
      * by rewrite decide_False by congruence.
      * exact IH.
Qed.

Lemma json_laws : ArduinoJsonLaws (json_lib := json).
Proof.
  split.
  - done.
  - intros d k v k'. simpl. rewrite doc_get_doc_set. by case_decide.
  - intros d k v k'. simpl. rewrite doc_get_doc_set. by case_decide.
Qed.

Lemma flash_laws : FlashFSLaws (flash_fs := flash).
Proof.
  split; simpl.
  - intros fs path data fs'. destruct (jammed fs); [done|]. intros [= <-]. simpl.
    by rewrite lookup_insert_eq.
  - intros fs path data fs'. destruct (jammed fs); [done|]. intros [= <-]. simpl.
    by rewrite lookup_insert_eq.
  - intros fs path. by rewrite lookup_delete_eq.
Qed.

(** *** More of the registry *)

Lemma reachable_configured : reachable configured.
Proof. apply reach_registerParam, reach_init. Qed.

Lemma reachable_keys_unique_witness :
  reachable configured ∧ size (configValues configured) = length (configParams configured).
Proof.
  split; [exact reachable_configured|].
  exact (proj2 (proj2 (reachable_keys_unique configured reachable_configured))).
Defined.

Lemma registerParam_then_get_witness :
  getConfigValue "mqtt_port" (registerParam "mqtt_port" "MQTT Port" "1883" 6 configured)
  = "1883" ∧
  getConfigValue "mqtt_server"
    (registerParam "mqtt_server" "Broker" "other.local" 20 configured)
  = "broker.local".
Proof.
  split.
  - apply (proj1 (registerParam_then_get "mqtt_port" "MQTT Port" "1883" 6 configured
                    reachable_configured)).
    apply (bool_decide_unpack _). vm_compute. exact I.
  - apply (proj2 (registerParam_then_get "mqtt_server" "Broker" "other.local" 20
                    configured reachable_configured)
             {| key := "mqtt_server"; label := "MQTT Server";
                defaultValue := "broker.local"; maxLength := 40;
                value := "broker.local" |}).
    apply list_elem_of_here.
Defined.

Lemma unregisterParam_spec_witness :
  reachable configured ∧
  getConfigValue "mqtt_server" (unregisterParam "mqtt_server" configured) = EmptyString.
Proof.
  split; [exact reachable_configured|].
  exact (proj1 (proj2 (unregisterParam_spec "mqtt_server" configured
                         reachable_configured))).
Defined.

Lemma registerParam_unregisterParam_witness :
  unregisterParam "mqtt_port" (registerParam "mqtt_port" "MQTT Port" "1883" 6 configured)
  = configured.
Proof.
  apply (registerParam_unregisterParam "mqtt_port" "MQTT Port" "1883" 6 configured
           reachable_configured).
  apply (bool_decide_unpack _). vm_compute. exact I.
Defined.

Lemma setConfigValue_unsaved_witness :
  (∀ data, fs_store (fileSystem (configured_on "{}" true)) CONFIG_FILE data = None) ∧
  getConfigValue "mqtt_server"
    (setConfigValue "mqtt_server" "10.0.0.5" (configured_on "{}" true)) = "10.0.0.5" ∧
  fileSystem (setConfigValue "mqtt_server" "10.0.0.5" (configured_on "{}" true))
  = fileSystem (configured_on "{}" true).
Proof.
  assert (∀ data, fs_store (fileSystem (configured_on "{}" true)) CONFIG_FILE data = None)
    as Hjam by reflexivity.
  split; [exact Hjam|].
  apply (setConfigValue_unsaved "mqtt_server" "10.0.0.5" (configured_on "{}" true));
    [|exact Hjam].
  apply (bool_decide_unpack _). vm_compute. exact I.
Defined.

Lemma loadConfigFromWiFiManager_unchanged_witness :
  loadConfigFromWiFiManager (λ _, EmptyString) configured = configured.
Proof.
  apply (loadConfigFromWiFiManager_unchanged (json_lib := json) (λ _, EmptyString)
           configured).
  intros p _. by left.
Defined.

Lemma loadConfigFromWiFiManager_values_witness :
  getConfigValue "mqtt_server" (loadConfigFromWiFiManager (λ _, "10.0.0.5") configured)
  = "10.0.0.5".
Proof.
  apply (loadConfigFromWiFiManager_values (json_lib := json) (λ _, "10.0.0.5") configured
           {| key := "mqtt_server"; label := "MQTT Server";
              defaultValue := "broker.local"; maxLength := 40;
              value := "broker.local" |}
           reachable_configured).
  apply list_elem_of_here.
Defined.

Lemma reachable_readdressed : reachable readdressed.
Proof. apply reach_setConfigValue, reachable_configured. Qed.

Lemma resetConfig_spec_witness :
  reachable readdressed ∧
  getConfigValue "mqtt_server" readdressed = "10.0.0.5" ∧
  readConfig (resetConfig readdressed) = (false, resetConfig readdressed).
Proof.
  split; [exact reachable_readdressed|]. split; [reflexivity|].
  exact (proj2 (proj2 (proj2
           (resetConfig_spec (json_lib := json) (flash_ok := flash_laws)
              readdressed reachable_readdressed)))).
Defined.

Lemma saveConfig_readConfig_restart_witness :
  ∃ loaded, readConfig rebooted = (true, loaded) ∧
    getConfigValue "mqtt_server" loaded = "10.0.0.5".
Proof.
  destruct (saveConfig_readConfig_restart (json_ok := json_laws)
              (flash_ok := flash_laws)
              readdressed (saveConfig readdressed).2 rebooted
              reachable_readdressed eq_refl eq_refl eq_refl)
    as (loaded & Hread & Hval & _).
  exists loaded. split; [exact Hread|].
  apply (Hval {| key := "mqtt_server"; label := "MQTT Server";
                 defaultValue := "broker.local"; maxLength := 40;
                 value := "10.0.0.5" |}).
  - apply list_elem_of_here.
  - apply list_elem_of_here.
Defined.

Lemma saveConfig_readConfig_witness :
  saveConfig readdressed = (true, (saveConfig readdressed).2) ∧
  readConfig (saveConfig readdressed).2 = (true, (saveConfig readdressed).2).
Proof.
  split; [reflexivity|].
  exact (saveConfig_readConfig (json_ok := json_laws)
           (flash_ok := flash_laws)
           readdressed (saveConfig readdressed).2
           reachable_readdressed eq_refl eq_refl).
Defined.

Lemma setConfigValue_survives_restart_witness :
  (readConfig rebooted).1 = true ∧
  getConfigValue "mqtt_server" (readConfig rebooted).2 = "10.0.0.5".
Proof.
  apply (setConfigValue_survives_restart (json_ok := json_laws)
           (flash_ok := flash_laws)
           "mqtt_server" "10.0.0.5" configured rebooted reachable_configured).
  - apply (bool_decide_unpack _). vm_compute. exact I.
  - eexists. reflexivity.
  - reflexivity.
  - reflexivity.
  - apply (bool_decide_unpack _). vm_compute. exact I.
Defined.

(** *** More of the manager *)

Lemma message_buffer_short_witness :
  String.length (object1 "level" "7") ≤ 255 ∧
  message_buffer (object1 "level" "7") 13 = object1 "level" "7" ∧
  onMqttMessage (cmd_manager open_broker) "home/device1/cmd" (object1 "level" "7") 13
  = [MessageInvoked 2 "home/device1/cmd" (object1 "level" "7")].
Proof.
  assert (String.length (object1 "level" "7") ≤ 255) as Hlen by (vm_compute; lia).
  split; [exact Hlen|].
  destruct (message_buffer_short (json_lib := json) (cmd_manager open_broker)
              "home/device1/cmd" (object1 "level" "7") Hlen eq_refl)
    as (Hbuf & Hrun & _).
  split; [exact Hbuf | exact Hrun].
Defined.


Lemma unregisterTopic_spec_witness :
  topics (unregisterTopic "cmd" twice_manager)
  = [{| name := "cmd"; onCommand := Some 3; onMessage := Some 4 |}] ∧
  topics (unregisterTopic "other" twice_manager) = topics twice_manager.
Proof.
  split.
  - exact (proj1 (proj2 (unregisterTopic_spec "cmd" twice_manager))
             [] {| name := "cmd"; onCommand := Some 1; onMessage := Some 2 |}
             [{| name := "cmd"; onCommand := Some 3; onMessage := Some 4 |}]
             eq_refl eq_refl eq_refl).
  - exact (proj2 (proj2 (unregisterTopic_spec "other" twice_manager)) eq_refl).
Defined.

Lemma registerTopic_unregisterTopic_witness :
  topics (unregisterTopic "cmd" (registerTopic "cmd" (Some 1) None (device1 open_broker)))
  = [] ∧
  topics (unregisterTopic "cmd"
            (registerTopic "cmd" (Some 3) (Some 4) (cmd_manager open_broker)))
  = [{| name := "cmd"; onCommand := Some 3; onMessage := Some 4 |}].
Proof.
  split.
  - exact (proj1 (registerTopic_unregisterTopic "cmd" (Some 1) None (device1 open_broker))
             eq_refl).
  - refine (proj2 (registerTopic_unregisterTopic "cmd" (Some 3) (Some 4)
                     (cmd_manager open_broker)) _).
    vm_compute. lia.
Defined.

Lemma onMqttMessage_unregistered_witness :
  onMqttMessage (cmd_manager open_broker) "home/device1/reset"
    (object1 "command" "reboot") 20 = [] ∧
  onMqttMessage (device1 open_broker) "home/device1/cmd"
    (object1 "command" "reboot") 20 = [].
Proof.
  split.
  - exact (proj1 (onMqttMessage_unregistered (json_lib := json) (cmd_manager open_broker)
                    "reset" (object1 "command" "reboot") 20) eq_refl).
  - exact (proj2 (onMqttMessage_unregistered (json_lib := json) (device1 open_broker)
                    "cmd" (object1 "command" "reboot") 20) eq_refl "home/device1/cmd").
Defined.

Lemma registerTopic_then_command_witness :
  onMqttMessage (registerTopic "cmd" (Some 1) None (device1 open_broker))
    "home/device1/cmd" (object1 "command" "reboot") 20
  = [CommandInvoked 1 "reboot" [("command", JString "reboot")]].
Proof.
  exact (registerTopic_then_command (json_lib := json) (device1 open_broker) "cmd" 1 None
           (object1 "command" "reboot") 20 ([("command", JString "reboot")] : Doc)
           eq_refl eq_refl eq_refl).
Defined.

Lemma unregisterTopic_then_message_witness :
  onMqttMessage (unregisterTopic "cmd" (cmd_manager open_broker)) "home/device1/cmd"
    (object1 "command" "reboot") 20 = [].
Proof.
  refine (unregisterTopic_then_message (json_lib := json) (cmd_manager open_broker) "cmd"
            (object1 "command" "reboot") 20 _).
  vm_compute. lia.
Defined.

Lemma publishStatus_spec_witness :
  publishStatus (fresh (cmd_manager open_broker))
  = (false, fresh (cmd_manager open_broker)) ∧
  (∃ w', publishStatus (fresh (cmd_manager live_broker)) = (true, w') ∧
     wire w' =
       [Publish "home/device1/home/device1/status"
          (serializeJson
             (status_document (deviceStatus (cmd_manager live_broker)) 0))]).
Proof.
  split.
  - exact (proj1 (publishStatus_spec (fresh (cmd_manager open_broker))) eq_refl).
  - destruct (proj2 (publishStatus_spec (fresh (cmd_manager live_broker)))
                live_broker eq_refl eq_refl) as (w' & Hrun & Hwire & _).
    exists w'. split; [exact Hrun | exact Hwire].
Defined.

Lemma publishCommandResponse_spec_witness :
  publishCommandResponse "reboot" true "ok" (fresh (cmd_manager open_broker))
  = (false, fresh (cmd_manager open_broker)) ∧
  (∃ w', publishCommandResponse "reboot" true "ok" (fresh (cmd_manager live_broker))
         = (true, w') ∧
     wire w' =
       [Publish "home/device1/home/device1/response"
          (serializeJson (response_document "reboot" true "ok" 0))]).
Proof.
  split.
  - exact (proj1 (publishCommandResponse_spec "reboot" true "ok"
                    (fresh (cmd_manager open_broker))) eq_refl).
  - destruct (proj2 (publishCommandResponse_spec "reboot" true "ok"
                       (fresh (cmd_manager live_broker)))
                live_broker eq_refl eq_refl) as (w' & Hrun & Hwire).
    exists w'. split; [exact Hrun | exact Hwire].
Defined.

Lemma null_client_is_safe_witness :
  connect configured (fresh clientless) = (false, fresh clientless) ∧
  loop configured (fresh clientless) = ([], fresh clientless).
Proof.
  destruct (null_client_is_safe configured "status" "{}" "reboot" true (fresh clientless)
              eq_refl) as (Hconnect & _ & _ & _ & _ & Hloop).
  split; [exact Hconnect | exact Hloop].
Defined.

Lemma loop_reconnects_witness :
  loop configured (fresh (cmd_manager open_broker))
  = ([], (connect configured (fresh (cmd_manager open_broker))).2) ∧
  wire (loop configured (fresh (cmd_manager open_broker))).2
  = [Connect "device1" None; Subscribe "home/device1/cmd";
     Publish "home/device1/home/device1/online"
       (serializeJson (online_document "device1" 1000))].
Proof.
  split; [|reflexivity].
  exact (loop_reconnects configured (fresh (cmd_manager open_broker)) open_broker
           eq_refl eq_refl).
Defined.



Lemma status_due_rollover_witness :
  status_due 5 4294967290 10 = true ∧ status_due 5 4294967290 12 = false.
Proof.
  split.
  - apply (status_due_rollover 5 4294967290 10); [lia | lia | lia |].
    vm_compute. discriminate.
  - apply not_true_is_false. intros Hdue.
    apply (status_due_rollover 5 4294967290 12) in Hdue; [|lia..].
    vm_compute in Hdue. by apply Hdue.
Defined.

End Scenarios.
